(** * Dual-write receipt ingestion: event model, orchestrator, reconciliation

    A shallow embedding of
      - [pos_integration/models.py]            (event model and validators),
      - [pos_integration/dual_write_handler.py] (dual-write orchestrator),
      - [pipelines/sync_to_lakebase.py]         (reconciliation scan),
    and the properties of the specification that concern them.

    Conventions.
      - Python [int] is [Z] (unbounded); Python [float] is an IEEE 754
        binary64 value, represented by [spec_float] in canonical form.
      - Python [str] is [string]; one [ascii] stands for one character.  The
        character classes of the runtime ([str.isdigit], [str.isspace], the
        regex class [\d]) are tables of the interpreter, not of this
        repository: they are section variables.
      - [Optional[T]] is [option T]; for a keyword argument [None] also
        stands for "not passed".
      - [datetime] is a [Z]: microseconds since the epoch, UTC.
      - An exception value [Exn] is an instance of Python's [Exception]; the
        handlers of the source are all [except Exception]. *)

From Stdlib Require Import ZArith String Ascii List Bool Lia.
From Stdlib Require Import SpecFloat DecimalString.
From stdpp Require Import base option list gmap strings.

Open Scope Z_scope.

(** ** Results and validation errors *)

Inductive result (E A : Type) : Type :=
| Ok (a : A)
| Err (e : E).
Arguments Ok {E A} a.
Arguments Err {E A} e.

Definition is_ok {E A} (r : result E A) : bool :=
  match r with Ok _ => true | Err _ => false end.

(** One entry of a pydantic [ValidationError] (itself a [ValueError]). *)
Inductive ErrorDetail : Type :=
| missing (loc : string)
| greater_than_equal (loc : string)
| literal_error (loc : string)
| string_too_short (loc : string)
| string_too_long (loc : string)
| string_pattern_mismatch (loc : string)
| value_error (msg : string)
| at_item (idx : nat) (e : ErrorDetail).

Definition ValidationError : Type := list ErrorDetail.

Definition errs_of {A} (r : result ErrorDetail A) : list ErrorDetail :=
  match r with Ok _ => [] | Err e => [e] end.

Definition required {A} (loc : string) (o : option A) : result ErrorDetail A :=
  match o with Some a => Ok a | None => Err (missing loc) end.

(** [Field(ge=0)] on an [int]. *)
Definition int_ge0 (loc : string) (v : Z) : result ErrorDetail Z :=
  if 0 <=? v then Ok v else Err (greater_than_equal loc).

(** [Optional[int] = Field(default=None, ge=0)]. *)
Definition opt_int_ge0 (loc : string) (o : option Z) : result ErrorDetail (option Z) :=
  match o with
  | None => Ok None
  | Some v => if 0 <=? v then Ok (Some v) else Err (greater_than_equal loc)
  end.

(** ** Floats *)

Definition float : Type := spec_float.

Definition float_of_Z (z : Z) : float := binary_normalize 53 1024 z 0 false.

Definition float_zero : float := S754_zero false.
Definition float_one : float := Eval vm_compute in float_of_Z 1.

(** [x >= 0.0]; false on NaN. *)
Definition float_ge0 (x : float) : bool := SFleb float_zero x.

(** [x < 0.0]. *)
Definition float_negative (x : float) : bool := SFltb x float_zero.

(** [x != y]; true when either is NaN. *)
Definition float_ne (x y : float) : bool := negb (SFeqb x y).

(** The float is a whole number ([float.is_integer]). *)
Definition float_is_integer (x : float) : bool :=
  match x with
  | S754_zero _ => true
  | S754_finite _ m e =>
      if 0 <=? e then true else Z.pos m mod 2 ^ (- e) =? 0
  | _ => false
  end.

(** Nearest integer to [m * 2^e], ties to even. *)
Definition round_half_even (m : positive) (e : Z) : Z :=
  if 0 <=? e then Z.pos m * 2 ^ e
  else
    let d := 2 ^ (- e) in
    let q := Z.pos m / d in
    let r := Z.pos m mod d in
    match 2 * r ?= d with
    | Lt => q
    | Gt => q + 1
    | Eq => if Z.even q then q else q + 1
    end.

Definition decimal (z : Z) : string :=
  NilZero.string_of_uint (N.to_uint (Z.to_N z)).

(** The format [f"{x:.0f}"]. *)
Definition format_0f (x : float) : string :=
  match x with
  | S754_zero s => if s then "-0" else "0"
  | S754_infinity s => if s then "-inf" else "inf"
  | S754_nan => "nan"
  | S754_finite s m e => (if s then "-" else EmptyString) +:+ decimal (round_half_even m e)
  end.

(** The float nearest to [m * 2^e]. *)
Definition py_float (m : Z) (e : Z) : float := binary_normalize 53 1024 m e false.

(** ** Truthiness of an [Optional[str]] *)

Definition str_truthy (o : option string) : bool :=
  match o with
  | None => false
  | Some s => negb (String.eqb s EmptyString)
  end.

(** ** POSLineItem *)

Module POSLineItem.

(** The keyword arguments of the constructor. *)
Record fields : Type := Fields {
  f_upc : option string;
  f_sku : option string;
  f_product_desc : option string;
  f_quantity : option float;
  f_unit_price_cents : option Z;
  f_extended_cents : option Z;
  f_discount_cents : option Z;
  f_department_code : option string
}.

Record t : Type := Make {
  upc : option string;
  sku : option string;
  product_desc : string;
  quantity : float;
  unit_price_cents : Z;
  extended_cents : Z;
  discount_cents : Z;
  department_code : option string
}.

Definition upc_or_sku_msg : string :=
  "Each line item must have at least a upc or sku".

(** [quantity: float = Field(default=1.0, ge=0)] *)
Definition v_quantity (o : option float) : result ErrorDetail float :=
  match o with
  | None => Ok float_one
  | Some q => if float_ge0 q then Ok q else Err (greater_than_equal "quantity")
  end.

(** [discount_cents: int = Field(default=0, ge=0)] *)
Definition v_discount (o : option Z) : result ErrorDetail Z :=
  match o with
  | None => Ok 0
  | Some d => int_ge0 "discount_cents" d
  end.

(** [@model_validator(mode="after")] *)
Definition upc_or_sku_required (self : t) : result ValidationError t :=
  if negb (str_truthy (upc self)) && negb (str_truthy (sku self))
  then Err [value_error upc_or_sku_msg]
  else Ok self.

(** The constructor [POSLineItem]: the field validators in declaration order,
    their errors collected; the model validator runs when there is none. *)
Definition construct (d : fields) : result ValidationError t :=
  let r_desc := required "product_desc" (f_product_desc d) in
  let r_qty := v_quantity (f_quantity d) in
  let r_unit := match required "unit_price_cents" (f_unit_price_cents d) with
                | Ok v => int_ge0 "unit_price_cents" v
                | Err e => Err e
                end in
  let r_ext := match required "extended_cents" (f_extended_cents d) with
               | Ok v => int_ge0 "extended_cents" v
               | Err e => Err e
               end in
  let r_disc := v_discount (f_discount_cents d) in
  match r_desc, r_qty, r_unit, r_ext, r_disc with
  | Ok desc, Ok qty, Ok unit_, Ok ext, Ok disc =>
      upc_or_sku_required
        {| upc := f_upc d; sku := f_sku d; product_desc := desc;
           quantity := qty; unit_price_cents := unit_;
           extended_cents := ext; discount_cents := disc;
           department_code := f_department_code d |}
  | _, _, _, _, _ =>
      Err (errs_of r_desc ++ errs_of r_qty ++ errs_of r_unit
             ++ errs_of r_ext ++ errs_of r_disc)
  end.

(** Short human-readable label for the receipt summary field. *)
Definition item_summary_fragment (self : t) : string :=
  let qty := if float_ne (quantity self) float_one
             then format_0f (quantity self) +:+ "x "
             else EmptyString in
  qty +:+ product_desc self.

End POSLineItem.

(** ** Strings as the source uses them *)

Definition chars (s : string) : list ascii := list_ascii_of_string s.

(** The characters of [cs] joined into one [str]. *)
Definition join_chars (cs : list ascii) : string := string_of_list_ascii cs.

Definition str_len (s : string) : Z := Z.of_nat (String.length s).

(** [str(n)] for an [int]. *)
Definition str_int (z : Z) : string :=
  if z <? 0 then "-" +:+ decimal (- z) else decimal z.

(** [cs[-n:]] for [n > 0]. *)
Definition last_n (n : nat) (cs : list ascii) : list ascii :=
  drop (length cs - n) cs.

Section Strip.
Variable isspace : ascii -> bool.

Fixpoint lstrip (cs : list ascii) : list ascii :=
  match cs with
  | c :: cs' => if isspace c then lstrip cs' else cs
  | [] => []
  end.

Definition rstrip (cs : list ascii) : list ascii := rev (lstrip (rev cs)).

(** [s.strip()] *)
Definition strip (s : string) : string :=
  join_chars (rstrip (lstrip (chars s))).
End Strip.

(** ** POSReceiptEvent *)

Definition tender_types : list string :=
  ["CREDIT"; "DEBIT"; "CASH"; "EBT"; "CHECK"; "GIFT"].

Definition str_in (s : string) (l : list string) : bool :=
  existsb (String.eqb s) l.

Module POSReceiptEvent.

(** The keyword arguments of the constructor. *)
Record fields : Type := Fields {
  f_transaction_id : option string;
  f_store_id : option string;
  f_store_name : option string;
  f_pos_terminal_id : option string;
  f_cashier_id : option string;
  f_customer_id : option string;
  f_transaction_ts : option Z;
  f_subtotal_cents : option Z;
  f_tax_cents : option Z;
  f_total_cents : option Z;
  f_tender_type : option string;
  f_card_last4 : option string;
  f_items : list POSLineItem.fields
}.

Record t : Type := Make {
  transaction_id : string;
  store_id : string;
  store_name : string;
  pos_terminal_id : option string;
  cashier_id : option string;
  customer_id : option string;
  transaction_ts : Z;
  subtotal_cents : option Z;
  tax_cents : option Z;
  total_cents : Z;
  tender_type : option string;
  card_last4 : option string;
  items : list POSLineItem.t
}.

Definition total_msg (sub tax total : Z) : string :=
  "subtotal_cents (" +:+ str_int sub +:+ ") + tax_cents (" +:+ str_int tax
    +:+ ") does not equal total_cents (" +:+ str_int total
    +:+ ") within ±5 cents".

(** Subtotal + tax should be close to the total when all three are
    provided.  [@model_validator(mode="after")] *)
Definition validate_total (self : t) : result ValidationError t :=
  match subtotal_cents self, tax_cents self with
  | Some sub, Some tax =>
      if Z.abs ((sub + tax) - total_cents self) >? 5
      then Err [value_error (total_msg sub tax (total_cents self))]
      else Ok self
  | _, _ => Ok self
  end.

(** [Optional[Literal["CREDIT", ...]]] *)
Definition v_tender_type (o : option string) : result ErrorDetail (option string) :=
  match o with
  | None => Ok None
  | Some s => if str_in s tender_types then Ok (Some s)
              else Err (literal_error "tender_type")
  end.

(** The items, each built by [POSLineItem]; an error of item [i] is
    reported under [items.i]. *)
Fixpoint v_items (i : nat) (ds : list POSLineItem.fields)
  : list ErrorDetail * list POSLineItem.t :=
  match ds with
  | [] => ([], [])
  | d :: ds' =>
      let '(errs, its) := v_items (S i) ds' in
      match POSLineItem.construct d with
      | Ok it => (errs, it :: its)
      | Err es => (map (at_item i) es ++ errs, its)
      end
  end.

Section Validators.
Variable isdigit : ascii -> bool.
Variable isspace : ascii -> bool.
Variable re_digit : ascii -> bool.

(** Accept '4532' or '****4532': extract the last 4 digits.
    [@field_validator("card_last4", mode="before")]; the argument is
    [None] or [str(v)]. *)
Definition strip_card_last4 (v : option string) : option string :=
  match v with
  | None => None
  | Some sv =>
      let s := strip isspace sv in
      let digits := join_chars (List.filter isdigit (chars s)) in
      if str_len digits >=? 4
      then Some (join_chars (last_n 4 (chars digits)))
      else None
  end.

(** [min_length=4, max_length=4, pattern=r"^\d{4}$"] on the value the
    before-validator returned. *)
Definition v_card_last4 (o : option string) : result ErrorDetail (option string) :=
  match strip_card_last4 o with
  | None => Ok None
  | Some s =>
      if str_len s <? 4 then Err (string_too_short "card_last4")
      else if str_len s >? 4 then Err (string_too_long "card_last4")
      else if forallb re_digit (chars s) then Ok (Some s)
      else Err (string_pattern_mismatch "card_last4")
  end.

(** The constructor [POSReceiptEvent]: the field validators in
    declaration order, their errors collected; the model validator runs
    when there is none. *)
Definition construct (d : fields) : result ValidationError t :=
  let r_id := required "transaction_id" (f_transaction_id d) in
  let r_store := required "store_id" (f_store_id d) in
  let r_name := required "store_name" (f_store_name d) in
  let r_ts := required "transaction_ts" (f_transaction_ts d) in
  let r_sub := opt_int_ge0 "subtotal_cents" (f_subtotal_cents d) in
  let r_tax := opt_int_ge0 "tax_cents" (f_tax_cents d) in
  let r_total := match required "total_cents" (f_total_cents d) with
                 | Ok v => int_ge0 "total_cents" v
                 | Err e => Err e
                 end in
  let r_tender := v_tender_type (f_tender_type d) in
  let r_card := v_card_last4 (f_card_last4 d) in
  let '(item_errs, its) := v_items 0 (f_items d) in
  match r_id, r_store, r_name, r_ts, r_sub, r_tax, r_total, r_tender,
        r_card, item_errs with
  | Ok id, Ok store, Ok name, Ok ts, Ok sub, Ok tax, Ok total, Ok tender,
    Ok card, [] =>
      validate_total
        {| transaction_id := id; store_id := store; store_name := name;
           pos_terminal_id := f_pos_terminal_id d;
           cashier_id := f_cashier_id d;
           customer_id := f_customer_id d;
           transaction_ts := ts;
           subtotal_cents := sub; tax_cents := tax; total_cents := total;
           tender_type := tender; card_last4 := card; items := its |}
  | _, _, _, _, _, _, _, _, _, _ =>
      Err (errs_of r_id ++ errs_of r_store ++ errs_of r_name
             ++ errs_of r_ts ++ errs_of r_sub ++ errs_of r_tax
             ++ errs_of r_total ++ errs_of r_tender ++ errs_of r_card
             ++ item_errs)
  end.
End Validators.

(** Derived helpers. *)

Definition item_count (self : t) : Z := Z.of_nat (length (items self)).

(** Top-3 item names joined: the quick-display column. *)
Definition item_summary (self : t) : string :=
  let top := take 3 (items self) in
  let summary := String.concat ", " (map POSLineItem.item_summary_fragment top) in
  if Z.of_nat (length (items self)) >? 3
  then summary +:+ " + " +:+ str_int (Z.of_nat (length (items self)) - 3) +:+ " more"
  else summary.

(** The items as JSON-serializable dicts, one per item, in order. *)
Definition raw_items_json (self : t) : list POSLineItem.t := items self.

End POSReceiptEvent.

(** ** Dicts, exceptions, the outcome record *)

(** A value stored in a [dict[str, Any]] of the handler. *)
Inductive pyval : Type :=
| PNone
| PStr (s : string)
| PInt (z : Z).

Abbreviation dict := (gmap string pyval).

(** [d.get(k)] *)
Definition dict_get (d : dict) (k : string) : pyval := default PNone (d !! k).

(** An instance of [Exception]: its class and [str(exc)]; [RaisedFrom] also
    carries the exception it was raised [from]. *)
Inductive Exn : Type :=
| Raised (cls : string) (msg : string)
| RaisedFrom (cls : string) (msg : string) (cause : Exn).

Definition exn_cls (e : Exn) : string :=
  match e with Raised c _ | RaisedFrom c _ _ => c end.

(** [str(exc)] *)
Definition exn_str (e : Exn) : string :=
  match e with Raised _ m | RaisedFrom _ m _ => m end.

Definition exn_cause (e : Exn) : option Exn :=
  match e with Raised _ _ => None | RaisedFrom _ _ c => Some c end.

Definition RuntimeError (msg : string) (from : Exn) : Exn :=
  RaisedFrom "RuntimeError" msg from.

Inductive OverallStatus : Type := success | partial | failed.

Module DualWriteResult.

Record t : Type := Make {
  transaction_id : string;
  lakebase : dict;
  zerobus : dict;
  overall_status : OverallStatus
}.

Definition is_success (v : pyval) : bool :=
  match v with PStr s => String.eqb s "success" | _ => false end.

Definition lakebase_ok (self : t) : bool :=
  is_success (dict_get (lakebase self) "status").

Definition zerobus_ok (self : t) : bool :=
  is_success (dict_get (zerobus self) "status").

End DualWriteResult.

(** ** The operational table [receipt_transactions] *)

Record Row : Type := MkRow {
  col_transaction_id : string;
  col_store_id : string;
  col_store_name : string;
  col_pos_terminal_id : option string;
  col_cashier_id : option string;
  col_customer_id : option string;
  col_transaction_ts : Z;
  col_subtotal_cents : option Z;
  col_tax_cents : option Z;
  col_total_cents : Z;
  col_tender_type : option string;
  col_card_last4 : option string;
  col_item_count : Z;
  col_item_summary : string;
  col_raw_items : list POSLineItem.t
}.

(** The parameters bound to the INSERT statement. *)
Definition insert_params (receipt : POSReceiptEvent.t) : Row :=
  {| col_transaction_id := POSReceiptEvent.transaction_id receipt;
     col_store_id := POSReceiptEvent.store_id receipt;
     col_store_name := POSReceiptEvent.store_name receipt;
     col_pos_terminal_id := POSReceiptEvent.pos_terminal_id receipt;
     col_cashier_id := POSReceiptEvent.cashier_id receipt;
     col_customer_id := POSReceiptEvent.customer_id receipt;
     col_transaction_ts := POSReceiptEvent.transaction_ts receipt;
     col_subtotal_cents := POSReceiptEvent.subtotal_cents receipt;
     col_tax_cents := POSReceiptEvent.tax_cents receipt;
     col_total_cents := POSReceiptEvent.total_cents receipt;
     col_tender_type := POSReceiptEvent.tender_type receipt;
     col_card_last4 := POSReceiptEvent.card_last4 receipt;
     col_item_count := POSReceiptEvent.item_count receipt;
     col_item_summary := POSReceiptEvent.item_summary receipt;
     col_raw_items := POSReceiptEvent.raw_items_json receipt |}.

Definition has_key (k : string) (r : Row) : bool :=
  String.eqb (col_transaction_id r) k.

(** The rows added by [INSERT INTO receipt_transactions ... ON CONFLICT
    (transaction_id) DO NOTHING], given the rows visible to the statement. *)
Definition insert_on_conflict_do_nothing (row : Row) (visible : list Row) : list Row :=
  if existsb (has_key (col_transaction_id row)) visible
  then []
  else [row].

(** [SELECT COUNT( * ) FROM receipt_transactions WHERE transaction_id = k] *)
Definition count_key (k : string) (table : list Row) : nat :=
  length (List.filter (has_key k) table).

(** [SELECT * FROM receipt_transactions WHERE transaction_id = k] *)
Definition select_key (k : string) (table : list Row) : list Row :=
  List.filter (has_key k) table.

(** ** The world of the handler and its environment *)

Inductive LogLevel : Type := INFO | WARNING | ERROR.

(** The module-level [_pool]. *)
Inductive PoolState : Type :=
| NoPool          (* [_pool is None] *)
| PoolClosed      (* a pool object with [closed = True] *)
| PoolOpen.       (* a pool object with [closed = False] *)

Record World : Type := MkWorld {
  pool : PoolState;
  pool_lock : bool;                        (* [_pool_lock is not None] *)
  receipt_transactions : list Row;         (* committed rows *)
  staged : list Row;                       (* rows of the open transaction *)
  zerobus_calls : list POSReceiptEvent.t;  (* calls of [zerobus.ingest_receipt] *)
  log : list (LogLevel * string)
}.

(** What the collaborators do during one call of [write_receipt]: for every
    operation that can raise, the exception it raises if it is reached. *)
Record Env : Type := MkEnv {
  pool_open_exc : option Exn;       (* [await _pool.open()] *)
  acquire_exc : option Exn;         (* entering [pool.connection()] *)
  execute_exc : option Exn;         (* [await cur.execute(...)] *)
  commit_exc : option Exn;          (* [await conn.commit()] *)
  commit_applied : bool;            (* a [commit] that raises had taken effect:
                                       the server committed, its reply was lost *)
  release_exc : option Exn;         (* leaving [pool.connection()] *)
  zerobus_outcome : result Exn dict (* [self.zerobus.ingest_receipt(receipt)] *)
}.

Definition set_pool (p : PoolState) (w : World) : World :=
  MkWorld p (pool_lock w) (receipt_transactions w) (staged w) (zerobus_calls w) (log w).
Definition set_pool_lock (b : bool) (w : World) : World :=
  MkWorld (pool w) b (receipt_transactions w) (staged w) (zerobus_calls w) (log w).
Definition set_table (t : list Row) (w : World) : World :=
  MkWorld (pool w) (pool_lock w) t (staged w) (zerobus_calls w) (log w).
Definition set_staged (s : list Row) (w : World) : World :=
  MkWorld (pool w) (pool_lock w) (receipt_transactions w) s (zerobus_calls w) (log w).
Definition set_zerobus_calls (c : list POSReceiptEvent.t) (w : World) : World :=
  MkWorld (pool w) (pool_lock w) (receipt_transactions w) (staged w) c (log w).
Definition set_log (l : list (LogLevel * string)) (w : World) : World :=
  MkWorld (pool w) (pool_lock w) (receipt_transactions w) (staged w) (zerobus_calls w) l.

(** ** A state-and-exception monad *)

Definition M (A : Type) : Type := World -> result Exn A * World.

Definition ret {A} (a : A) : M A := fun w => (Ok a, w).

Definition raise {A} (e : Exn) : M A := fun w => (Err e, w).

Definition bind {A B} (m : M A) (k : A -> M B) : M B :=
  fun w =>
    match m w with
    | (Ok a, w') => k a w'
    | (Err e, w') => (Err e, w')
    end.

(** [try: body / except Exception as exc: handler exc] *)
Definition try_except {A} (body : M A) (handler : Exn -> M A) : M A :=
  fun w =>
    match body w with
    | (Ok a, w') => (Ok a, w')
    | (Err e, w') => handler e w'
    end.

Notation "'do' x <- c ; k" := (bind c (fun x => k))
  (at level 10, x name, c at level 100, k at level 200).
Notation "'do_' c ; k" := (bind c (fun _ => k))
  (at level 10, c at level 100, k at level 200).

Definition modify (f : World -> World) : M unit := fun w => (Ok tt, f w).

(** An awaited operation that raises [e] when the environment says so. *)
Definition may_raise (o : option Exn) : M unit :=
  match o with Some e => raise e | None => ret tt end.

Definition logger (lvl : LogLevel) (msg : string) : M unit :=
  modify (fun w => set_log (log w ++ [(lvl, msg)]) w).

(** ** The connection pool *)

(** Return (or lazily create) the shared pool: fast path when a pool exists
    and is open; otherwise create the lock if needed and, under the lock,
    re-check, create the pool and open it. *)
Definition get_pool (env : Env) : M unit :=
  fun w =>
    match pool w with
    | PoolOpen => (Ok tt, w)
    | _ =>
        let w1 := set_pool_lock true w in
        (do_ logger INFO "Creating Lakebase connection pool (min=2, max=10)..." ;
         do_ modify (set_pool PoolClosed) ;
         do_ may_raise (pool_open_exc env) ;
         do_ modify (set_pool PoolOpen) ;
         logger INFO "Lakebase connection pool opened successfully") w1
    end.

(** [async with pool.connection() as conn: body]: a connection with no open
    transaction; the transaction is rolled back when the block raises and
    committed when it is left normally. *)
Definition with_connection {A} (env : Env) (body : M A) : M A :=
  fun w =>
    match acquire_exc env with
    | Some e => (Err e, w)
    | None =>
        match body (set_staged [] w) with
        | (Err e, w1) => (Err e, set_staged [] w1)
        | (Ok a, w1) =>
            match release_exc env with
            | Some e => (Err e, set_staged [] w1)
            | None =>
                (Ok a, set_staged [] (set_table (receipt_transactions w1 ++ staged w1) w1))
            end
        end
    end.

(** [await cur.execute(INSERT ... ON CONFLICT (transaction_id) DO NOTHING)]
    inside the open transaction. *)
Definition execute_insert (env : Env) (row : Row) : M unit :=
  do_ may_raise (execute_exc env) ;
  modify (fun w =>
    let visible := receipt_transactions w ++ staged w in
    set_staged (staged w ++ insert_on_conflict_do_nothing row visible) w).

(** [await conn.commit()].  When it raises, the transaction may or may not
    have been committed by the server. *)
Definition commit (env : Env) : M unit :=
  match commit_exc env with
  | None =>
      modify (fun w => set_staged [] (set_table (receipt_transactions w ++ staged w) w))
  | Some e =>
      do_ (if commit_applied env
           then modify (fun w =>
                  set_staged [] (set_table (receipt_transactions w ++ staged w) w))
           else ret tt) ;
      raise e
  end.

(** ** DualWriteHandler *)

(** INSERT the receipt into [receipt_transactions], then commit. *)
Definition _write_to_lakebase (env : Env) (receipt : POSReceiptEvent.t) : M unit :=
  do_ execute_insert env (insert_params receipt) ;
  commit env.

(** [self.zerobus.ingest_receipt(receipt)]: the call is recorded, its outcome
    is the collaborator's. *)
Definition zerobus_ingest_receipt (env : Env) (receipt : POSReceiptEvent.t) : M dict :=
  fun w =>
    (zerobus_outcome env, set_zerobus_calls (zerobus_calls w ++ [receipt]) w).

Definition status_dict (s : string) : dict := {[ "status" := PStr s ]}.

(** The body of the first [try] of [write_receipt]: the Lakebase write. *)
Definition critical_path (env : Env) (receipt : POSReceiptEvent.t) : M dict :=
  do_ get_pool env ;
  do_ with_connection env (_write_to_lakebase env receipt) ;
  do_ logger INFO ("Lakebase write OK: " +:+ POSReceiptEvent.transaction_id receipt) ;
  ret (status_dict "success").

Definition critical_path_msg (txid : string) (exc : Exn) : string :=
  "Critical path (Lakebase) failed for " +:+ txid +:+ ": " +:+ exn_str exc.

(** Step 1 of [write_receipt]: the Lakebase write, critical path, must
    succeed. *)
Definition lakebase_write (env : Env) (receipt : POSReceiptEvent.t) : M dict :=
  let txid := POSReceiptEvent.transaction_id receipt in
  try_except
    (critical_path env receipt)
    (fun exc =>
       do_ logger ERROR
         ("Lakebase write FAILED for " +:+ txid +:+ ": " +:+ exn_str exc) ;
       raise (RuntimeError (critical_path_msg txid exc) exc)).

(** Step 2 of [write_receipt]: the Zerobus write, best effort, and the
    returned result. *)
Definition zerobus_write (env : Env) (receipt : POSReceiptEvent.t)
    (lakebase_result : dict) : M DualWriteResult.t :=
  let txid := POSReceiptEvent.transaction_id receipt in
  do zerobus_result <-
    try_except
      (do zb_outcome <- zerobus_ingest_receipt env receipt ;
       do_ logger INFO ("Zerobus write OK: " +:+ txid) ;
       ret (<[ "status" := PStr "success" ]>
              (<[ "ack_timestamp" := dict_get zb_outcome "receipts_ack" ]>
                 {[ "event_id" := dict_get zb_outcome "event_id" ]})))
      (fun exc =>
         do_ logger WARNING
           ("Zerobus write FAILED for " +:+ txid +:+ ": " +:+ exn_str exc
              +:+ ". Receipt is safe in Lakebase. Reconciliation will sync to Delta.") ;
         ret (<[ "status" := PStr "failed" ]> {[ "error" := PStr (exn_str exc) ]})) ;
  let overall :=
    if DualWriteResult.is_success (dict_get zerobus_result "status")
    then success
    else partial in
  ret {| DualWriteResult.transaction_id := txid;
         DualWriteResult.lakebase := lakebase_result;
         DualWriteResult.zerobus := zerobus_result;
         DualWriteResult.overall_status := overall |}.

(** Dual-write a single POS receipt. *)
Definition write_receipt (env : Env) (receipt : POSReceiptEvent.t)
    : M DualWriteResult.t :=
  do lakebase_result <- lakebase_write env receipt ;
  zerobus_write env receipt lakebase_result.

(** ** write_batch: the coroutines under [asyncio.gather] *)

(** A coroutine of [write_receipt] between two scheduling points: created,
    past step 1, or finished with a result or an exception.  Step 1 is one
    transaction of the store and is taken as one step. *)
Inductive Task : Type :=
| Created (env : Env) (receipt : POSReceiptEvent.t)
| AfterLakebase (env : Env) (receipt : POSReceiptEvent.t) (lakebase_result : dict)
| Done (outcome : result Exn DualWriteResult.t).

Definition step_task (t : Task) (w : World) : Task * World :=
  match t with
  | Created env r =>
      match lakebase_write env r w with
      | (Ok lb, w') => (AfterLakebase env r lb, w')
      | (Err e, w') => (Done (Err e), w')
      end
  | AfterLakebase env r lb =>
      let '(out, w') := zerobus_write env r lb w in (Done out, w')
  | Done out => (Done out, w)
  end.

(** The event loop resumes task [i]. *)
Definition step_at (i : nat) (ts : list Task) (w : World) : list Task * World :=
  match ts !! i with
  | Some t => let '(t', w') := step_task t w in (<[ i := t' ]> ts, w')
  | None => (ts, w)
  end.

Fixpoint run (sched : list nat) (ts : list Task) (w : World) : list Task * World :=
  match sched with
  | [] => (ts, w)
  | i :: sched' => let '(ts', w') := step_at i ts w in run sched' ts' w'
  end.

Definition task_outcome (t : Task) : option (result Exn DualWriteResult.t) :=
  match t with Done out => Some out | _ => None end.

(** [tasks = [self.write_receipt(r) for r in receipts]]; the [i]-th call
    meets the environment [envs i]. *)
Definition spawn (envs : nat -> Env) (receipts : list POSReceiptEvent.t) : list Task :=
  imap (fun i r => Created (envs i) r) receipts.

(** [await asyncio.gather( *tasks, return_exceptions=True)]: once every task
    is finished, their results or exceptions in the order of [tasks]. *)
Definition gather (ts : list Task) : option (list (result Exn DualWriteResult.t)) :=
  mapM task_outcome ts.

(** Process a batch of receipts concurrently, under the schedule [sched] of
    the event loop; [None] while some task is still pending. *)
Definition write_batch (envs : nat -> Env) (receipts : list POSReceiptEvent.t)
    (sched : list nat) (w : World)
    : option (list (result Exn DualWriteResult.t) * World) :=
  let '(ts, w') := run sched (spawn envs receipts) w in
  match gather ts with
  | Some res => Some (res, w')
  | None => None
  end.

(** The schedule that runs the tasks one after the other. *)
Definition sequential (n : nat) : list nat :=
  flat_map (fun i => [i; i]) (seq 0 n).

(** ** Reconciliation scan *)

(** A row of the synced table [receipt_lookup]; the scan reads its
    [transaction_id] only. *)
Record LookupRow : Type := MkLookupRow {
  rl_transaction_id : option string
}.

(** [ON rt.transaction_id = rl.transaction_id] *)
Definition join_on (rt : Row) (rl : LookupRow) : bool :=
  match rl_transaction_id rl with
  | Some k => String.eqb (col_transaction_id rt) k
  | None => false
  end.

(** [FROM receipt_transactions rt LEFT JOIN receipt_lookup rl ON ...] *)
Definition left_join (rts : list Row) (rls : list LookupRow)
    : list (Row * option LookupRow) :=
  flat_map
    (fun rt =>
       match List.filter (join_on rt) rls with
       | [] => [(rt, None)]
       | ms => map (fun m => (rt, Some m)) ms
       end)
    rts.

(** [INTERVAL 'h hours'] in microseconds. *)
Definition hours (h : Z) : Z := h * 3600 * 1000000.

(** [WHERE rt.transaction_ts >= NOW() - INTERVAL 'h hours'
       AND rl.transaction_id IS NULL] *)
Definition where_gap (now h : Z) (j : Row * option LookupRow) : bool :=
  (col_transaction_ts (fst j) >=? now - hours h)
  && match snd j with
     | None => true
     | Some rl => match rl_transaction_id rl with None => true | Some _ => false end
     end.

(** SQL [MIN] and [MAX]: NULL over no rows. *)
Definition sql_min (l : list Z) : option Z :=
  match l with [] => None | x :: l' => Some (fold_left Z.min l' x) end.
Definition sql_max (l : list Z) : option Z :=
  match l with [] => None | x :: l' => Some (fold_left Z.max l' x) end.

Record GapRow : Type := MkGapRow {
  row_gap_count : Z;
  row_oldest_missing_ts : option Z;
  row_newest_missing_ts : option Z
}.

(** The gap query; an aggregate without GROUP BY yields one row. *)
Definition gap_query (now h : Z) (rts : list Row) (rls : list LookupRow) : GapRow :=
  let missing := List.filter (where_gap now h) (left_join rts rls) in
  let tss := map (fun j => col_transaction_ts (fst j)) missing in
  {| row_gap_count := Z.of_nat (length missing);
     row_oldest_missing_ts := sql_min tss;
     row_newest_missing_ts := sql_max tss |}.

Record GapReport : Type := MkGapReport {
  gap_count : Z;
  oldest_missing_ts : option string;
  newest_missing_ts : option string;
  lookback_hours : Z;
  recommendation : string
}.

(** Lakebase as the scan meets it.  The server computes [NOW() - INTERVAL]
    as a timestamp and raises when the result is not one:
    [ts_min <= t < ts_end] are the timestamps it has.  [query_exc] is any
    other exception of the [with] blocks: of [cur.execute(gap_query)] (the
    server gone, a table missing, an interval the server does not read), of
    [cur.fetchone()], or of leaving the cursor and the connection. *)
Record Lakebase : Type := MkLakebase {
  psycopg_installed : bool;
  connect_exc : option Exn;          (* [psycopg.connect] raises *)
  query_exc : option Exn;            (* the body of the [with] blocks raises *)
  ts_min : Z;
  ts_end : Z;
  now : Z;                           (* [NOW()] *)
  tbl_receipt_transactions : list Row;
  tbl_receipt_lookup : list LookupRow
}.

(** The timestamps of PostgreSQL, 4713 BC to 294276 AD, in microseconds
    since the Unix epoch. *)
Definition PG_TS_MIN : Z := -210866803200000000.
Definition PG_TS_END : Z := 9224318016000000000.

(** The cutoff [NOW() - INTERVAL 'h hours'] is a timestamp of the server. *)
Definition cutoff_in_range (db : Lakebase) (h : Z) : bool :=
  (ts_min db <=? now db - hours h) && (now db - hours h <? ts_end db).

Section Reconcile.
(** [str(dt)] for a [datetime]. *)
Variable datetime_str : Z -> string.

(** The report built from the fetched row. *)
Definition gap_report (row : option GapRow) (lookback : Z) : GapReport :=
  {| gap_count := match row with Some r => row_gap_count r | None => 0 end;
     oldest_missing_ts :=
       match row with
       | Some r => match row_oldest_missing_ts r with
                   | Some ts => Some (datetime_str ts)
                   | None => None
                   end
       | None => None
       end;
     newest_missing_ts :=
       match row with
       | Some r => match row_newest_missing_ts r with
                   | Some ts => Some (datetime_str ts)
                   | None => None
                   end
       | None => None
       end;
     lookback_hours := lookback;
     recommendation :=
       match row with
       | Some r =>
           if negb (row_gap_count r =? 0) && (row_gap_count r >? 0)
           then "Gap detected — consider triggering a Gold pipeline refresh."
           else "No gap detected. Synced tables are current."
       | None => "No gap detected. Synced tables are current."
       end |}.

(** Find receipts in the Lakebase native table not yet in Gold Delta;
    [lookback_hours = None] is the default of 24 hours.  Returns the
    report and the line logged; raises what the import, the connection or
    the query raises. *)
Definition reconcile_gaps (db : Lakebase) (lookback_hours : option Z)
    : result Exn (GapReport * (LogLevel * string)) :=
  let lookback := default 24 lookback_hours in
  if negb (psycopg_installed db)
  then Err (Raised "RuntimeError"
              "psycopg[binary] required for reconcile_gaps. Install with: pip install 'psycopg[binary]'")
  else
    match connect_exc db, query_exc db with
    | Some e, _ => Err e
    | None, Some e => Err e
    | None, None =>
        if negb (cutoff_in_range db lookback)
        then Err (Raised "DatetimeFieldOverflow" "timestamp out of range")
        else
          let row := Some (gap_query (now db) lookback
                             (tbl_receipt_transactions db) (tbl_receipt_lookup db)) in
          let result := gap_report row lookback in
          let line :=
            if gap_count result >? 0
            then (WARNING,
                  "Reconciliation gap: " +:+ str_int (gap_count result)
                    +:+ " receipts in Lakebase native not yet in Gold Delta (lookback="
                    +:+ str_int lookback +:+ "h). Oldest missing: "
                    +:+ match oldest_missing_ts result with
                        | Some s => s
                        | None => "None"
                        end)
            else (INFO, "Reconciliation check passed — no gaps found.") in
          Ok (result, line)
    end.
End Reconcile.

(** ** The character tables on ASCII and Latin-1

    [str.isdigit] and [str.isspace] as CPython defines them on the code
    points below 128, and below 256. *)

Definition code (c : ascii) : Z := Z.of_N (N_of_ascii c).

Definition ascii_isdigit (c : ascii) : bool :=
  (48 <=? code c) && (code c <=? 57).

Definition ascii_isspace (c : ascii) : bool :=
  ((9 <=? code c) && (code c <=? 13)) || ((28 <=? code c) && (code c <=? 32)).

Definition latin1_isdigit (c : ascii) : bool :=
  ascii_isdigit c || (code c =? 178) || (code c =? 179) || (code c =? 185).

Definition latin1_isspace (c : ascii) : bool :=
  ascii_isspace c || (code c =? 133) || (code c =? 160).

(** ** Sample data, after the unit tests *)

Definition mystery_product : POSLineItem.fields :=
  POSLineItem.Fields None None (Some "Mystery product") (Some (float_of_Z 1))
    (Some 100) (Some 100) None None.

Definition bananas : POSLineItem.fields :=
  POSLineItem.Fields (Some "4011") None (Some "Bananas") (Some (py_float 5 (-1)))
    (Some 59) (Some 148) None None.

(** 2026-02-18 14:30:00 UTC *)
Definition sample_ts : Z := 1771425000000000.

(** A receipt header with the given totals, no card and no items. *)
Definition header (txid : string) (sub tax : option Z) (total : Z)
    : POSReceiptEvent.fields :=
  POSReceiptEvent.Fields (Some txid) (Some "S1") (Some "Store One") None None None
    (Some sample_ts) sub tax (Some total) None None [].

(** ** Predicates of the statements *)

(** The amounts of an accepted line item are the integers passed in, none
    negative; its quantity is a float that is >= 0. *)
Definition item_amounts_ok (d : POSLineItem.fields) (it : POSLineItem.t) : Prop :=
  POSLineItem.f_unit_price_cents d = Some (POSLineItem.unit_price_cents it)
  /\ 0 <= POSLineItem.unit_price_cents it
  /\ POSLineItem.f_extended_cents d = Some (POSLineItem.extended_cents it)
  /\ 0 <= POSLineItem.extended_cents it
  /\ (POSLineItem.f_discount_cents d = Some (POSLineItem.discount_cents it)
      \/ POSLineItem.f_discount_cents d = None /\ POSLineItem.discount_cents it = 0)
  /\ 0 <= POSLineItem.discount_cents it
  /\ float_ge0 (POSLineItem.quantity it) = true.


(** No operation of the Lakebase path raises. *)
Definition lakebase_healthy (env : Env) : Prop :=
  pool_open_exc env = None /\ acquire_exc env = None /\ execute_exc env = None
  /\ commit_exc env = None /\ release_exc env = None.

Definition sample_items : list POSLineItem.t :=
  [ POSLineItem.Make (Some "012345678901") (Some "SKU-001") "Oat Milk 32oz"
      (float_of_Z 2) 429 858 0 (Some "DAIRY");
    POSLineItem.Make (Some "987654321098") (Some "SKU-002") "Roquefort Wedge 8oz"
      (float_of_Z 1) 899 899 0 (Some "CHEESE") ].

Definition sample_receipt : POSReceiptEvent.t :=
  POSReceiptEvent.Make "TXN-TEST-001" "STORE-247" "East Liberty" (Some "LANE-04")
    (Some "EMP-9912") (Some "CUST-TEST-001") sample_ts (Some 1757) (Some 105) 1862
    (Some "CREDIT") (Some "4532") sample_items.

(** The same transaction submitted again with another total. *)
Definition sample_resubmitted : POSReceiptEvent.t :=
  POSReceiptEvent.Make "TXN-TEST-001" "STORE-247" "East Liberty" (Some "LANE-04")
    (Some "EMP-9912") (Some "CUST-TEST-001") sample_ts None None 1865
    (Some "CREDIT") (Some "4532") sample_items.

Definition batch_receipt (i : Z) : POSReceiptEvent.t :=
  POSReceiptEvent.Make ("TXN-BATCH-00" +:+ str_int i) "S1" "Store One" None None None
    sample_ts None None (1000 + i) None None [].

Definition zerobus_ack : dict :=
  <[ "status" := PStr "ingested" ]>
    (<[ "event_id" := PStr "evt-123" ]>
       {[ "receipts_ack" := PStr "2026-02-18T14:30:01Z" ]}).

Definition connection_refused : Exn := Raised "Exception" "Connection refused".
Definition zerobus_unreachable : Exn := Raised "ConnectionError" "Zerobus unreachable".

(** Both collaborators work. *)
Definition env_ok : Env := MkEnv None None None None false None (Ok zerobus_ack).
(** Entering [pool.connection()] raises. *)
Definition env_lakebase_down : Env :=
  MkEnv None (Some connection_refused) None None false None (Ok zerobus_ack).
(** Zerobus raises. *)
Definition env_zerobus_down : Env :=
  MkEnv None None None None false None (Err zerobus_unreachable).

Definition empty_world : World := MkWorld NoPool false [] [] [] [].

(** The task [t] is the coroutine of [write_receipt] for [r] under [env], at
    some point of its run; [P] holds of the worlds it has run in. *)
Definition task_for (P : World -> Prop) (env : Env) (r : POSReceiptEvent.t)
    (t : Task) : Prop :=
  match t with
  | Created env' r' => env' = env /\ r' = r
  | AfterLakebase env' r' lb =>
      env' = env /\ r' = r
      /\ exists w w1, P w /\ critical_path env r w = (Ok lb, w1)
  | Done out => exists w, P w /\ out = fst (write_receipt env r w)
  end.

(** The number of steps a task still has to take. *)
Definition remaining (t : Task) : nat :=
  match t with
  | Created _ _ => 2
  | AfterLakebase _ _ _ => 1
  | Done _ => 0
  end.

(** Every task of [ts] is the coroutine of the receipt at its index. *)
Definition tasks_for (P : World -> Prop) (envs : nat -> Env)
    (receipts : list POSReceiptEvent.t) (ts : list Task) : Prop :=
  length ts = length receipts
  /\ forall i r, receipts !! i = Some r ->
       exists t, ts !! i = Some t /\ task_for P (envs i) r t.

(** A batch of three; the second item meets a Lakebase that is down. *)
Definition batch3 : list POSReceiptEvent.t :=
  [batch_receipt 0; batch_receipt 1; batch_receipt 2].

Definition envs3 (i : nat) : Env :=
  match i with 1%nat => env_lakebase_down | _ => env_ok end.

Definition sched3 : list nat := [2; 0; 1; 1; 0; 2]%nat.

(** The operational row is within the lookback window of [h] hours. *)
Definition in_window (now h : Z) (rt : Row) : bool :=
  now - hours h <=? col_transaction_ts rt.

(** The analytics copy has a row for the transaction of [rt]. *)
Definition in_lookup (rls : list LookupRow) (rt : Row) : bool :=
  existsb (join_on rt) rls.

(** Left anti-join of the operational rows against the analytics copy on
    transaction_id, within the window. *)
Definition anti_join (now h : Z) (rts : list Row) (rls : list LookupRow) : list Row :=
  List.filter (fun rt => in_window now h rt && negb (in_lookup rls rt)) rts.

(** An operational table with two transactions, one hour old, and an
    analytics copy that has the second only. *)
Definition sample_lakebase : Lakebase :=
  MkLakebase true None None PG_TS_MIN PG_TS_END (sample_ts + hours 1)
    [insert_params sample_receipt; insert_params (batch_receipt 0)]
    [MkLookupRow (Some "TXN-BATCH-000"); MkLookupRow None].

Definition five_items : list POSLineItem.t :=
  map (fun i => POSLineItem.Make (Some (str_int i)) None ("Item " +:+ str_int i)
                  (float_of_Z 1) 100 100 0 None)
    [0; 1; 2; 3; 4].

(** An operational table whose only row is dated 1000 hours ahead of the
    server's clock, and an empty analytics copy. *)
Definition lakebase_with_row_ahead : Lakebase :=
  MkLakebase true None None PG_TS_MIN PG_TS_END (sample_ts - hours 1000)
    [insert_params sample_receipt] [].

(** * Further definitions *)

(** The keyword arguments [d] with [total_cents] replaced. *)
Definition with_total (total : Z) (d : POSReceiptEvent.fields) : POSReceiptEvent.fields :=
  POSReceiptEvent.Fields
    (POSReceiptEvent.f_transaction_id d) (POSReceiptEvent.f_store_id d)
    (POSReceiptEvent.f_store_name d) (POSReceiptEvent.f_pos_terminal_id d)
    (POSReceiptEvent.f_cashier_id d) (POSReceiptEvent.f_customer_id d)
    (POSReceiptEvent.f_transaction_ts d) (POSReceiptEvent.f_subtotal_cents d)
    (POSReceiptEvent.f_tax_cents d) (Some total)
    (POSReceiptEvent.f_tender_type d) (POSReceiptEvent.f_card_last4 d)
    (POSReceiptEvent.f_items d).

(** The commit went through and leaving the connection block raises. *)
Definition env_release_fails : Env :=
  MkEnv None None None None false (Some connection_refused) (Ok zerobus_ack).

(** Every transaction_id has at most one row: the unique constraint that
    [ON CONFLICT (transaction_id)] relies on. *)
Definition unique_keys (table : list Row) : Prop :=
  forall k, (count_key k table <= 1)%nat.

(** The table [t'] is [t] with rows added at its end. *)
Definition extends (t t' : list Row) : Prop := exists added, t' = t ++ added.

(** The row a task has committed, if it is past its critical path, is in the
    table. *)
Definition task_row_present (t : Task) (table : list Row) : Prop :=
  match t with
  | Created _ _ => True
  | AfterLakebase _ r _ =>
      (0 < count_key (POSReceiptEvent.transaction_id r) table)%nat
  | Done (Ok res) =>
      (0 < count_key (DualWriteResult.transaction_id res) table)%nat
  | Done (Err _) => True
  end.

(** Two receipts with one transaction_id in one batch. *)
Definition batch_with_duplicate : list POSReceiptEvent.t :=
  [sample_receipt; batch_receipt 0; sample_resubmitted].

(** ** The Zerobus ingestion client ([infra/zerobus_client.py]) *)

Definition RECEIPTS_TABLE : string := "giant_eagle.bronze.pos_raw_receipts".
Definition ITEMS_TABLE : string := "giant_eagle.bronze.pos_raw_items".

(** A record for [pos_raw_receipts]; [raw_payload] is the dump of the whole
    event, kept structured. *)
Record ReceiptRecord : Type := MkReceiptRecord {
  rr_event_id : string;
  rr_transaction_id : string;
  rr_store_id : string;
  rr_store_name : string;
  rr_pos_terminal_id : option string;
  rr_cashier_id : option string;
  rr_customer_id : option string;
  rr_transaction_ts : string;
  rr_subtotal_cents : option Z;
  rr_tax_cents : option Z;
  rr_total_cents : Z;
  rr_tender_type : option string;
  rr_card_last4 : option string;
  rr_raw_payload : POSReceiptEvent.t;
  rr_ingested_ts : string
}.

(** A record for [pos_raw_items]. *)
Record ItemRecord : Type := MkItemRecord {
  ir_event_id : string;
  ir_transaction_id : string;
  ir_item_seq : Z;
  ir_upc : option string;
  ir_sku : option string;
  ir_product_desc : string;
  ir_quantity : float;
  ir_unit_price_cents : Z;
  ir_extended_cents : Z;
  ir_discount_cents : Z;
  ir_department_code : option string;
  ir_ingested_ts : string
}.

Inductive ZRecord : Type :=
| HeaderRec (r : ReceiptRecord)
| ItemRec (r : ItemRecord).

(** The body of one POST to [/api/2.0/zerobus/ingest]. *)
Record PostRequest : Type := MkPostRequest {
  req_table_name : string;
  req_records : list ZRecord
}.

(** What the client has sent and logged. *)
Record ZbWorld : Type := MkZbWorld {
  requests : list PostRequest;
  zb_log : list (LogLevel * string)
}.

(** What one call of [ingest_receipt] meets: the UUID drawn, the clock, and
    what the REST API does with the POST of the header and with the POST of
    the items (a response, possibly None, or an exception). *)
Record ZbEnv : Type := MkZbEnv {
  uuid4 : string;
  utc_now : string;
  post_receipts : result Exn (option dict);
  post_items : result Exn (option dict)
}.

(** POST records to the Zerobus REST API; raises on failure. *)
Definition _post_to_zerobus (outcome : result Exn (option dict))
    (table_name : string) (records : list ZRecord) (zw : ZbWorld)
    : result Exn dict * ZbWorld :=
  let sent := MkZbWorld (requests zw ++ [MkPostRequest table_name records]) (zb_log zw) in
  match outcome with
  | Ok response => (Ok (default ∅ response), sent)
  | Err exc =>
      (Err exc,
       MkZbWorld (requests sent)
         (zb_log sent
            ++ [(ERROR, "Zerobus ingest failed for table=" +:+ table_name
                          +:+ ", records=" +:+ str_int (Z.of_nat (length records))
                          +:+ ": " +:+ exn_str exc)]))
  end.

Section ZerobusClient.
(** [dt.isoformat()] for a [datetime]. *)
Variable isoformat : Z -> string.

Definition receipt_record (env : ZbEnv) (receipt : POSReceiptEvent.t) : ReceiptRecord :=
  {| rr_event_id := uuid4 env;
     rr_transaction_id := POSReceiptEvent.transaction_id receipt;
     rr_store_id := POSReceiptEvent.store_id receipt;
     rr_store_name := POSReceiptEvent.store_name receipt;
     rr_pos_terminal_id := POSReceiptEvent.pos_terminal_id receipt;
     rr_cashier_id := POSReceiptEvent.cashier_id receipt;
     rr_customer_id := POSReceiptEvent.customer_id receipt;
     rr_transaction_ts := isoformat (POSReceiptEvent.transaction_ts receipt);
     rr_subtotal_cents := POSReceiptEvent.subtotal_cents receipt;
     rr_tax_cents := POSReceiptEvent.tax_cents receipt;
     rr_total_cents := POSReceiptEvent.total_cents receipt;
     rr_tender_type := POSReceiptEvent.tender_type receipt;
     rr_card_last4 := POSReceiptEvent.card_last4 receipt;
     rr_raw_payload := receipt;
     rr_ingested_ts := utc_now env |}.

(** One record per line item, numbered by [enumerate(receipt.items,
    start=1)]. *)
Definition item_records (env : ZbEnv) (receipt : POSReceiptEvent.t) : list ItemRecord :=
  imap
    (fun i item =>
       {| ir_event_id := uuid4 env;
          ir_transaction_id := POSReceiptEvent.transaction_id receipt;
          ir_item_seq := Z.of_nat i + 1;
          ir_upc := POSLineItem.upc item;
          ir_sku := POSLineItem.sku item;
          ir_product_desc := POSLineItem.product_desc item;
          ir_quantity := POSLineItem.quantity item;
          ir_unit_price_cents := POSLineItem.unit_price_cents item;
          ir_extended_cents := POSLineItem.extended_cents item;
          ir_discount_cents := POSLineItem.discount_cents item;
          ir_department_code := POSLineItem.department_code item;
          ir_ingested_ts := utc_now env |})
    (POSReceiptEvent.items receipt).

(** Send a single POS receipt (header + items) to Zerobus. *)
Definition ingest_receipt (env : ZbEnv) (receipt : POSReceiptEvent.t) (zw : ZbWorld)
    : result Exn dict * ZbWorld :=
  let recs := item_records env receipt in
  match _post_to_zerobus (post_receipts env) RECEIPTS_TABLE
          [HeaderRec (receipt_record env receipt)] zw with
  | (Err exc, zw1) => (Err exc, zw1)
  | (Ok receipt_ack, zw1) =>
      let items_post :=
        match recs with
        | [] => (Ok ({[ "ack_timestamp" := PNone ]} : dict), zw1)
        | _ => _post_to_zerobus (post_items env) ITEMS_TABLE (map ItemRec recs) zw1
        end in
      match items_post with
      | (Err exc, zw2) => (Err exc, zw2)
      | (Ok items_ack, zw2) =>
          let result : dict :=
            <[ "status" := PStr "ingested" ]>
              (<[ "event_id" := PStr (uuid4 env) ]>
                 (<[ "transaction_id" := PStr (POSReceiptEvent.transaction_id receipt) ]>
                    (<[ "receipts_ack" := dict_get receipt_ack "ack_timestamp" ]>
                       (<[ "items_ack" := dict_get items_ack "ack_timestamp" ]>
                          {[ "item_count" := PInt (Z.of_nat (length recs)) ]})))) in
          (Ok result,
           MkZbWorld (requests zw2)
             (zb_log zw2
                ++ [(INFO, "Receipt " +:+ POSReceiptEvent.transaction_id receipt
                             +:+ " ingested via Zerobus (event_id=" +:+ uuid4 env
                             +:+ ", items=" +:+ str_int (Z.of_nat (length recs))
                             +:+ ")")]))
      end
  end.



End ZerobusClient.

(** The POST of the header of [receipt] and the POST of its items. *)
Definition header_request (isoformat : Z -> string) (env : ZbEnv)
    (receipt : POSReceiptEvent.t) : PostRequest :=
  MkPostRequest RECEIPTS_TABLE [HeaderRec (receipt_record isoformat env receipt)].

Definition items_request (env : ZbEnv) (receipt : POSReceiptEvent.t) : PostRequest :=
  MkPostRequest ITEMS_TABLE (map ItemRec (item_records env receipt)).

Definition zb_ok : ZbEnv :=
  MkZbEnv "evt-123" "2026-02-18T14:30:01+00:00"
    (Ok (Some {[ "ack_timestamp" := PStr "2026-02-18T14:30:01Z" ]})) (Ok None).

(** The header is acknowledged and the POST of the items raises. *)
Definition zb_items_fail : ZbEnv :=
  MkZbEnv "evt-456" "2026-02-18T14:30:02+00:00"
    (Ok None) (Err zerobus_unreachable).


Definition zb_empty : ZbWorld := MkZbWorld [] [].

(** ** Synced-table status ([pipelines/sync_to_lakebase.py]) *)

(** Synced table source -> target, in the order of the dict. *)
Definition SYNCED_TABLE_MAP : list (string * string) :=
  [ ("giant_eagle.gold.receipt_lookup", "giant_eagle_serving.public.receipt_lookup");
    ("giant_eagle.gold.spending_summary", "giant_eagle_serving.public.spending_summary");
    ("giant_eagle.gold.customer_profiles", "giant_eagle_serving.public.customer_profiles");
    ("giant_eagle.gold.product_catalog", "giant_eagle_serving.public.product_catalog") ].

(** [table.status]: the value of [detailed_state], when there is one, and the
    message. *)
Record TableStatus : Type := MkTableStatus {
  detailed_state : option string;
  status_message : option string
}.

(** What [w.online_tables.get] returns. *)
Record OnlineTable : Type := MkOnlineTable {
  table_status : option TableStatus
}.

(** One entry of the list [check_sync_status] returns. *)
Record SyncStatus : Type := MkSyncStatus {
  source_table : string;
  target_table : string;
  state : string;
  message : option string
}.

(** The body of the loop of [check_sync_status] for one table. *)
Definition check_one (get : string -> result Exn OnlineTable)
    (source target : string) : SyncStatus * (LogLevel * string) :=
  match get source with
  | Ok table =>
      let state_ :=
        match table_status table with
        | Some st => match detailed_state st with
                     | Some v => v
                     | None => "UNKNOWN"
                     end
        | None => "UNKNOWN"
        end in
      let message_ :=
        match table_status table with
        | Some st => status_message st
        | None => None
        end in
      (MkSyncStatus source target state_ message_,
       (INFO, "  " +:+ source +:+ ": " +:+ state_))
  | Err exc =>
      (MkSyncStatus source target "ERROR" (Some (exn_str exc)),
       (ERROR, "  " +:+ source +:+ ": ERROR — " +:+ exn_str exc))
  end.

(** Return the current sync state for all four Lakebase synced tables, and
    the lines logged. *)
Definition check_sync_status (get : string -> result Exn OnlineTable)
    : list SyncStatus * list (LogLevel * string) :=
  fold_left
    (fun '(results, lg) '(source, target) =>
       let '(entry, line) := check_one get source target in
       (results ++ [entry], lg ++ [line]))
    SYNCED_TABLE_MAP ([], []).





(** A workspace where every synced table is in the given state, except the
    spending summary, whose lookup raises. *)
Definition sample_workspace (st : string) (source : string) : result Exn OnlineTable :=
  if String.eqb source "giant_eagle.gold.spending_summary"
  then Err connection_refused
  else Ok (MkOnlineTable (Some (MkTableStatus (Some st) None))).


(** The database [db] with more rows in the analytics copy. *)
Definition with_lookup_rows (more : list LookupRow) (db : Lakebase) : Lakebase :=
  MkLakebase (psycopg_installed db) (connect_exc db) (query_exc db)
    (ts_min db) (ts_end db) (now db)
    (tbl_receipt_transactions db) (tbl_receipt_lookup db ++ more).

(** [psycopg.connect] raises. *)
Definition unreachable_lakebase : Lakebase :=
  MkLakebase true (Some connection_refused) None PG_TS_MIN PG_TS_END
    (sample_ts + hours 1)
    [insert_params sample_receipt] [].

(** The task has finished with a result. *)
Definition done_ok (t : Task) : bool :=
  match t with Done (Ok _) => true | _ => false end.

(** The commit reaches the server and takes effect, and its reply is lost. *)
Definition env_commit_reply_lost : Env :=
  MkEnv None None None (Some connection_refused) true None (Ok zerobus_ack).

(** The commit fails before it reaches the server. *)
Definition env_commit_fails : Env :=
  MkEnv None None None (Some connection_refused) false None (Ok zerobus_ack).

(** * Properties *)

(** ** Sanity checks against the unit tests *)

Example frag_plural :
  POSLineItem.item_summary_fragment
    (POSLineItem.Make (Some "1") None "Oat Milk" (float_of_Z 2) 429 858 0 None)
  = "2x Oat Milk".
Proof. vm_compute. reflexivity. Qed.

Example frag_single :
  POSLineItem.item_summary_fragment
    (POSLineItem.Make (Some "1") None "Cheese" (float_of_Z 1) 899 899 0 None)
  = "Cheese".
Proof. vm_compute. reflexivity. Qed.

Example fmt_half : format_0f (py_float 5 (-1)) = "2" /\ format_0f (py_float 7 (-1)) = "4"
   /\ float_is_integer (py_float 5 (-1)) = false /\ float_is_integer (float_of_Z 2) = true.
Proof. vm_compute. auto. Qed.


(** ** Floats *)

Lemma float_ge0_spec (x : float) :
  float_ge0 x = true <->
  match x with
  | S754_zero _ => True
  | S754_infinity s | S754_finite s _ _ => s = false
  | S754_nan => False
  end.
Proof.
  destruct x as [s|s| |s m e]; try destruct s; cbn; intuition congruence.
Qed.

Lemma float_negative_not_ge0 (x : float) :
  float_negative x = true -> float_ge0 x = false.
Proof.
  destruct x as [s|s| |s m e]; try destruct s; cbn; congruence.
Qed.

Lemma float_ge0_not_negative (x : float) :
  float_ge0 x = true -> float_negative x = false.
Proof.
  destruct x as [s|s| |s m e]; try destruct s; cbn; congruence.
Qed.

(** ** Line items *)

Section LineItemFacts.
Import POSLineItem.

Lemma int_ge0_Ok loc v v' : int_ge0 loc v = Ok v' -> v' = v /\ 0 <= v.
Proof.
  unfold int_ge0. destruct (Z.leb_spec 0 v) as [Hv|Hv]; intros E; inversion E; subst; split; [reflexivity | lia].
Qed.

Lemma int_ge0_neg loc v : v < 0 -> int_ge0 loc v = Err (greater_than_equal loc).
Proof.
  unfold int_ge0. destruct (Z.leb_spec 0 v) as [Hv|Hv]; intros; [lia | reflexivity].
Qed.

(** What an accepted line item looks like: every field is the keyword
    argument (or its default), within its bounds, and the model validator
    let it through. *)
Lemma construct_Ok_inv d it :
  construct d = Ok it ->
  f_product_desc d = Some (product_desc it)
  /\ v_quantity (f_quantity d) = Ok (quantity it)
  /\ f_unit_price_cents d = Some (unit_price_cents it) /\ 0 <= unit_price_cents it
  /\ f_extended_cents d = Some (extended_cents it) /\ 0 <= extended_cents it
  /\ v_discount (f_discount_cents d) = Ok (discount_cents it)
  /\ upc it = f_upc d /\ sku it = f_sku d
  /\ department_code it = f_department_code d
  /\ (str_truthy (upc it) = true \/ str_truthy (sku it) = true).
Proof.
  unfold construct; cbv zeta.
  destruct (f_product_desc d) as [desc|]; cbn [required]; [|intros; discriminate].
  destruct (v_quantity (f_quantity d)) as [q|] eqn:Hq; [|intros; discriminate].
  destruct (f_unit_price_cents d) as [u|]; cbn [required]; [|intros; discriminate].
  destruct (int_ge0 "unit_price_cents" u) as [u'|] eqn:Hu; [|intros; discriminate].
  destruct (f_extended_cents d) as [x|]; cbn [required]; [|intros; discriminate].
  destruct (int_ge0 "extended_cents" x) as [x'|] eqn:Hx; [|intros; discriminate].
  destruct (v_discount (f_discount_cents d)) as [dc|] eqn:Hd; [|intros; discriminate].
  apply int_ge0_Ok in Hu as [-> Hu]. apply int_ge0_Ok in Hx as [-> Hx].
  unfold upc_or_sku_required; cbn [upc sku].
  destruct (str_truthy (f_upc d)) eqn:Hupc, (str_truthy (f_sku d)) eqn:Hsku;
    cbn [negb andb]; intros H; inversion H; subst; cbn; auto 20.
Qed.

Lemma v_quantity_Ok o q : v_quantity o = Ok q -> float_ge0 q = true.
Proof.
  destruct o as [q'|]; cbn.
  - destruct (float_ge0 q') eqn:E; intros H; inversion H; subst; auto.
  - intros H; inversion H; reflexivity.
Qed.

Lemma v_discount_Ok o v : v_discount o = Ok v -> 0 <= v /\ (o = Some v \/ o = None /\ v = 0).
Proof.
  destruct o as [z|]; cbn.
  - intros H. apply int_ge0_Ok in H as [-> H]. auto.
  - intros H; inversion H; subst. split; [lia | auto].
Qed.

Lemma str_truthy_Some o : str_truthy o = true -> exists s, o = Some s /\ s <> EmptyString.
Proof.
  destruct o as [s|]; cbn; [|intros; discriminate].
  destruct (String.eqb_spec s EmptyString); cbn; [discriminate|]. eauto.
Qed.

(** Without a truthy identifier there is no line item. *)
Lemma construct_no_identifier d :
  str_truthy (f_upc d) = false -> str_truthy (f_sku d) = false ->
  exists e, construct d = Err e.
Proof.
  intros Hu Hs. destruct (construct d) as [it|e] eqn:E; [|eauto].
  apply construct_Ok_inv in E as (_&_&_&_&_&_&_&Eu&Es&_&[H|H]); congruence.
Qed.

(** When only the model validator objects, its [ValueError] is the whole
    error. *)
Lemma construct_only_identifier_missing d u s it :
  construct (Fields u s (f_product_desc d) (f_quantity d) (f_unit_price_cents d)
               (f_extended_cents d) (f_discount_cents d) (f_department_code d)) = Ok it ->
  str_truthy (f_upc d) = false -> str_truthy (f_sku d) = false ->
  construct d = Err [value_error upc_or_sku_msg].
Proof.
  unfold construct; cbn [f_product_desc f_quantity f_unit_price_cents f_extended_cents
                           f_discount_cents f_department_code f_upc f_sku].
  cbv zeta.
  destruct (required "product_desc" (f_product_desc d)) as [desc|]; [|intros; discriminate].
  destruct (v_quantity (f_quantity d)) as [q|]; [|intros; discriminate].
  destruct (required "unit_price_cents" (f_unit_price_cents d)) as [pu|]; [|intros; discriminate].
  destruct (int_ge0 "unit_price_cents" pu) as [pu'|]; [|intros; discriminate].
  destruct (required "extended_cents" (f_extended_cents d)) as [x|]; [|intros; discriminate].
  destruct (int_ge0 "extended_cents" x) as [x'|]; [|intros; discriminate].
  destruct (v_discount (f_discount_cents d)) as [dc|]; [|intros; discriminate].
  intros _ Hu Hs. unfold upc_or_sku_required; cbn [upc sku].
  rewrite Hu, Hs. reflexivity.
Qed.

(** The constructor reads the identifiers through their truthiness only. *)
Lemma construct_falsy_identifiers d u s :
  str_truthy (f_upc d) = false -> str_truthy (f_sku d) = false ->
  str_truthy u = false -> str_truthy s = false ->
  is_ok (construct d) = false /\
  construct d
  = construct (Fields u s (f_product_desc d) (f_quantity d) (f_unit_price_cents d)
                 (f_extended_cents d) (f_discount_cents d) (f_department_code d)).
Proof.
  intros Hu Hs Hu' Hs'. split.
  { destruct (construct_no_identifier d Hu Hs) as [e ->]. reflexivity. }
  unfold construct; cbn [f_product_desc f_quantity f_unit_price_cents f_extended_cents
                           f_discount_cents f_department_code f_upc f_sku].
  cbv zeta.
  destruct (required "product_desc" (f_product_desc d)) as [desc|]; try reflexivity.
  destruct (v_quantity (f_quantity d)) as [q|]; try reflexivity.
  destruct (required "unit_price_cents" (f_unit_price_cents d)) as [pu|]; try reflexivity.
  destruct (int_ge0 "unit_price_cents" pu) as [pu'|]; try reflexivity.
  destruct (required "extended_cents" (f_extended_cents d)) as [x|]; try reflexivity.
  destruct (int_ge0 "extended_cents" x) as [x'|]; try reflexivity.
  destruct (v_discount (f_discount_cents d)) as [dc|]; try reflexivity.
  unfold upc_or_sku_required; cbn [upc sku].
  rewrite Hu, Hs, Hu', Hs'. reflexivity.
Qed.

End LineItemFacts.

(** ** Receipt events *)

Section ReceiptFacts.
Import POSReceiptEvent.
Variables isdigit isspace re_digit : ascii -> bool.

Lemma opt_int_ge0_Ok loc o o' :
  opt_int_ge0 loc o = Ok o' -> o' = o /\ forall v, o = Some v -> 0 <= v.
Proof.
  destruct o as [v|]; cbn.
  - destruct (Z.leb_spec 0 v) as [Hv|Hv]; intros E; inversion E; subst.
    split; [reflexivity|]. intros v' [= <-]. exact Hv.
  - intros E; inversion E; subst. split; [reflexivity | discriminate].
Qed.

Lemma validate_total_Ok self ev :
  validate_total self = Ok ev ->
  ev = self /\
  forall sub tax, subtotal_cents self = Some sub -> tax_cents self = Some tax ->
                  Z.abs (sub + tax - total_cents self) <= 5.
Proof.
  unfold validate_total.
  destruct (subtotal_cents self) as [sub|], (tax_cents self) as [tax|];
    try (intros E; inversion E; subst; split; [reflexivity | intros; discriminate]).
  destruct (Z.gtb_spec (Z.abs (sub + tax - total_cents self)) 5) as [Hv|Hv];
    intros E; inversion E; subst.
  split; [reflexivity|]. intros ? ? [= <-] [= <-]. exact Hv.
Qed.

Lemma validate_total_Err self sub tax :
  subtotal_cents self = Some sub -> tax_cents self = Some tax ->
  5 < Z.abs (sub + tax - total_cents self) ->
  validate_total self = Err [value_error (total_msg sub tax (total_cents self))].
Proof.
  intros Hs Ht Hd. unfold validate_total. rewrite Hs, Ht.
  destruct (Z.gtb_spec (Z.abs (sub + tax - total_cents self)) 5); [reflexivity | lia].
Qed.

(** What an accepted receipt event looks like. *)
Lemma receipt_construct_Ok_inv d ev :
  construct isdigit isspace re_digit d = Ok ev ->
  exists its,
    v_items 0 (f_items d) = ([], its)
    /\ validate_total
         (Make (transaction_id ev) (store_id ev) (store_name ev)
            (f_pos_terminal_id d) (f_cashier_id d) (f_customer_id d)
            (transaction_ts ev) (f_subtotal_cents d) (f_tax_cents d)
            (total_cents ev) (tender_type ev) (card_last4 ev) its) = Ok ev
    /\ f_transaction_id d = Some (transaction_id ev)
    /\ f_store_id d = Some (store_id ev)
    /\ f_store_name d = Some (store_name ev)
    /\ f_transaction_ts d = Some (transaction_ts ev)
    /\ f_total_cents d = Some (total_cents ev) /\ 0 <= total_cents ev
    /\ (forall v, f_subtotal_cents d = Some v -> 0 <= v)
    /\ (forall v, f_tax_cents d = Some v -> 0 <= v)
    /\ v_tender_type (f_tender_type d) = Ok (tender_type ev)
    /\ v_card_last4 isdigit isspace re_digit (f_card_last4 d) = Ok (card_last4 ev).
Proof.
  unfold construct; cbv zeta.
  destruct (f_transaction_id d) as [id|]; cbn [required].
  2:{ destruct (v_items 0 (f_items d)); intros; discriminate. }
  destruct (f_store_id d) as [store|]; cbn [required].
  2:{ destruct (v_items 0 (f_items d)); intros; discriminate. }
  destruct (f_store_name d) as [name|]; cbn [required].
  2:{ destruct (v_items 0 (f_items d)); intros; discriminate. }
  destruct (f_transaction_ts d) as [ts|]; cbn [required].
  2:{ destruct (v_items 0 (f_items d)); intros; discriminate. }
  destruct (opt_int_ge0 "subtotal_cents" (f_subtotal_cents d)) as [sub|] eqn:Hsub.
  2:{ destruct (v_items 0 (f_items d)); intros; discriminate. }
  destruct (opt_int_ge0 "tax_cents" (f_tax_cents d)) as [tax|] eqn:Htax.
  2:{ destruct (v_items 0 (f_items d)); intros; discriminate. }
  destruct (f_total_cents d) as [total|]; cbn [required].
  2:{ destruct (v_items 0 (f_items d)); intros; discriminate. }
  destruct (int_ge0 "total_cents" total) as [total'|] eqn:Htotal.
  2:{ destruct (v_items 0 (f_items d)); intros; discriminate. }
  destruct (v_tender_type (f_tender_type d)) as [tender|] eqn:Htender.
  2:{ destruct (v_items 0 (f_items d)); intros; discriminate. }
  destruct (v_card_last4 isdigit isspace re_digit (f_card_last4 d)) as [card|] eqn:Hcard.
  2:{ destruct (v_items 0 (f_items d)); intros; discriminate. }
  destruct (v_items 0 (f_items d)) as [errs its] eqn:Hitems.
  destruct errs as [|e errs]; [|intros; discriminate].
  apply opt_int_ge0_Ok in Hsub as [-> Hsub]. apply opt_int_ge0_Ok in Htax as [-> Htax].
  unfold int_ge0 in Htotal.
  destruct (Z.leb_spec 0 total) as [Hv|Hv]; inversion Htotal; subst.
  intros E. pose proof (validate_total_Ok _ _ E) as [-> _]. cbn in *.
  exists its. repeat split; auto.
Qed.
End ReceiptFacts.

(** ** Strings *)

Lemma length_join_chars cs : String.length (join_chars cs) = length cs.
Proof.
  unfold join_chars. induction cs as [|c cs IH]; cbn; [reflexivity | now f_equal].
Qed.

Lemma chars_join_chars cs : chars (join_chars cs) = cs.
Proof. apply list_ascii_of_string_of_list_ascii. Qed.

Lemma join_chars_chars s : join_chars (chars s) = s.
Proof. apply string_of_list_ascii_of_string. Qed.

Lemma length_last_n n cs : (n <= length cs)%nat -> length (last_n n cs) = n.
Proof. intros H. unfold last_n. rewrite length_drop. lia. Qed.

Lemma Forall_last_n (P : ascii -> Prop) n cs : Forall P cs -> Forall P (last_n n cs).
Proof. apply Forall_drop. Qed.

Lemma Forall_filter_true (f : ascii -> bool) cs :
  Forall (fun c => f c = true) (List.filter f cs).
Proof.
  induction cs as [|c cs IH]; cbn; [constructor|].
  destruct (f c) eqn:E; [constructor|]; auto.
Qed.

Section StripFacts.
Variables isdigit isspace : ascii -> bool.
Hypothesis space_not_digit : forall c, isspace c = true -> isdigit c = false.

Lemma filter_lstrip cs :
  List.filter isdigit (lstrip isspace cs) = List.filter isdigit cs.
Proof.
  induction cs as [|c cs IH]; cbn; [reflexivity|].
  destruct (isspace c) eqn:E; [|reflexivity].
  rewrite (space_not_digit c E). exact IH.
Qed.

Lemma filter_rstrip cs :
  List.filter isdigit (rstrip isspace cs) = List.filter isdigit cs.
Proof.
  unfold rstrip. rewrite List.filter_rev, filter_lstrip, <- List.filter_rev.
  now rewrite rev_involutive.
Qed.

Lemma digits_of_strip s :
  List.filter isdigit (chars (strip isspace s)) = List.filter isdigit (chars s).
Proof.
  unfold strip. now rewrite chars_join_chars, filter_rstrip, filter_lstrip.
Qed.
End StripFacts.

Section CardSuffix.
Import POSReceiptEvent.
Variables isdigit isspace : ascii -> bool.

(** The value of [strip_card_last4] in terms of the digits it keeps. *)
Lemma strip_card_last4_unfold sv :
  strip_card_last4 isdigit isspace (Some sv)
  = let digits := List.filter isdigit (chars (strip isspace sv)) in
    if (4 <=? length digits)%nat then Some (join_chars (last_n 4 digits)) else None.
Proof.
  unfold strip_card_last4, str_len. cbv zeta.
  rewrite length_join_chars, chars_join_chars.
  destruct (Nat.leb_spec 4 (length (List.filter isdigit (chars (strip isspace sv))))) as [H|H];
    destruct (Z.geb_spec (Z.of_nat (length (List.filter isdigit (chars (strip isspace sv))))) 4);
    try reflexivity; lia.
Qed.

Lemma strip_card_last4_shape v s :
  strip_card_last4 isdigit isspace v = Some s ->
  String.length s = 4%nat /\ Forall (fun c => isdigit c = true) (chars s).
Proof.
  destruct v as [sv|]; [|discriminate].
  rewrite strip_card_last4_unfold. cbv zeta.
  destruct (Nat.leb_spec 4 (length (List.filter isdigit (chars (strip isspace sv))))) as [H|H];
    [|discriminate].
  intros [= <-]. rewrite length_join_chars, chars_join_chars. split.
  - apply length_last_n. exact H.
  - apply Forall_last_n, Forall_filter_true.
Qed.
End CardSuffix.

(** ** Claims on the event model *)

(** C6.  Line-item construction fails with a validation error whenever both
    product identifiers (upc and sku) are missing or the quantity is
    negative; hence every constructed line item has at least one identifier
    that is not null and a quantity >= 0. *)
Theorem line_item_identifier_and_quantity (d : POSLineItem.fields) :
  (POSLineItem.f_upc d = None /\ POSLineItem.f_sku d = None ->
   exists e, POSLineItem.construct d = Err e)
  /\ (forall q, POSLineItem.f_quantity d = Some q -> float_negative q = true ->
      exists e, POSLineItem.construct d = Err e)
  /\ (forall it, POSLineItem.construct d = Ok it ->
      (POSLineItem.upc it <> None \/ POSLineItem.sku it <> None)
      /\ float_ge0 (POSLineItem.quantity it) = true
      /\ float_negative (POSLineItem.quantity it) = false).
Proof.
  split; [|split].
  - intros [Hu Hs]. apply construct_no_identifier.
    + rewrite Hu. reflexivity.
    + rewrite Hs. reflexivity.
  - intros q Hq Hneg.
    destruct (POSLineItem.construct d) as [it|e] eqn:E; [|eauto].
    apply construct_Ok_inv in E as (_ & Hv & _). rewrite Hq in Hv. cbn in Hv.
    rewrite (float_negative_not_ge0 _ Hneg) in Hv. discriminate.
  - intros it E.
    apply construct_Ok_inv in E as (_ & Hq & _ & _ & _ & _ & _ & Hu & Hs & _ & Hid).
    apply v_quantity_Ok in Hq.
    split; [|split; [exact Hq | apply float_ge0_not_negative, Hq]].
    destruct Hid as [H|H]; apply str_truthy_Some in H as (s & H & _);
      [left | right]; congruence.
Qed.

Lemma line_item_identifier_and_quantity_witness :
  exists e, POSLineItem.construct mystery_product = Err e.
Proof.
  apply (proj1 (line_item_identifier_and_quantity mystery_product)).
  split; reflexivity.
Defined.

(** C10.  A line item whose upc and sku are both empty strings is rejected
    by construction with the same validation error as a line item whose
    identifiers are both absent: an identifier counts as present when it is
    truthy, so an empty string that is not null counts as missing. *)
Theorem empty_identifiers_rejected_as_absent (d : POSLineItem.fields) :
  POSLineItem.f_upc d = Some EmptyString ->
  POSLineItem.f_sku d = Some EmptyString ->
  let rest u s :=
    POSLineItem.Fields u s (POSLineItem.f_product_desc d) (POSLineItem.f_quantity d)
      (POSLineItem.f_unit_price_cents d) (POSLineItem.f_extended_cents d)
      (POSLineItem.f_discount_cents d) (POSLineItem.f_department_code d) in
  (exists e, POSLineItem.construct d = Err e
             /\ POSLineItem.construct (rest None None) = Err e)
  /\ (forall u it, POSLineItem.construct (rest (Some u) None) = Ok it ->
        POSLineItem.construct d = Err [value_error POSLineItem.upc_or_sku_msg]).
Proof.
  intros Hu Hs rest.
  assert (Tu : str_truthy (POSLineItem.f_upc d) = false) by (rewrite Hu; reflexivity).
  assert (Ts : str_truthy (POSLineItem.f_sku d) = false) by (rewrite Hs; reflexivity).
  split.
  - destruct (construct_falsy_identifiers d None None Tu Ts eq_refl eq_refl) as [Hno Heq].
    destruct (POSLineItem.construct d) as [it|e] eqn:E; [discriminate|].
    exists e. split; [reflexivity | symmetry; exact Heq].
  - intros u it Hok. exact (construct_only_identifier_missing d (Some u) None it Hok Tu Ts).
Qed.

Lemma empty_identifiers_rejected_as_absent_witness :
  exists e,
    POSLineItem.construct
      (POSLineItem.Fields (Some EmptyString) (Some EmptyString) (Some "Mystery product")
         (Some (float_of_Z 1)) (Some 100) (Some 100) None None) = Err e
    /\ POSLineItem.construct mystery_product = Err e.
Proof.
  exact (proj1 (empty_identifiers_rejected_as_absent
                  (POSLineItem.Fields (Some EmptyString) (Some EmptyString)
                     (Some "Mystery product") (Some (float_of_Z 1)) (Some 100)
                     (Some 100) None None) eq_refl eq_refl)).
Defined.

(** C9, as stated, fails: a quantity of 2.5 makes a line item, and 2.5 is
    not a whole number. *)
Lemma quantity_need_not_be_integer :
  ~ (forall d it, POSLineItem.construct d = Ok it ->
       float_is_integer (POSLineItem.quantity it) = true).
Proof.
  intros H.
  destruct (POSLineItem.construct bananas) as [it|e] eqn:E.
  - specialize (H bananas it E). vm_compute in E. inversion E; subst.
    vm_compute in H. discriminate.
  - vm_compute in E. discriminate.
Qed.

Section CardSuffixClaim.
Variables isdigit isspace : ascii -> bool.
Hypothesis space_not_digit : forall c, isspace c = true -> isdigit c = false.
Hypothesis isdigit_ascii : forall c, code c < 128 -> isdigit c = ascii_isdigit c.

(** C7.  Card-suffix normalization maps every input to either exactly 4
    digits or null: it extracts the digits of the input string and keeps
    the trailing 4, returning null when fewer than 4 digits remain; in
    particular ["****4532"] normalizes to ["4532"] and ["123"] to null.
    The result is the end of the digits of the input, whatever comes before
    it: of the sixteen digits of ["4111111111114532"] it is ["4532"]. *)
Theorem card_suffix_normalization (v : option string) :
  (POSReceiptEvent.strip_card_last4 isdigit isspace v = None
   \/ exists s, POSReceiptEvent.strip_card_last4 isdigit isspace v = Some s
                /\ String.length s = 4%nat
                /\ Forall (fun c => isdigit c = true) (chars s))
  /\ POSReceiptEvent.strip_card_last4 isdigit isspace v
     = match v with
       | None => None
       | Some sv =>
           let digits := List.filter isdigit (chars sv) in
           if (4 <=? length digits)%nat
           then Some (join_chars (last_n 4 digits))
           else None
       end
  /\ POSReceiptEvent.strip_card_last4 isdigit isspace (Some "****4532") = Some "4532"
  /\ POSReceiptEvent.strip_card_last4 isdigit isspace (Some "123") = None
  /\ (forall sv s,
        v = Some sv ->
        POSReceiptEvent.strip_card_last4 isdigit isspace v = Some s ->
        exists before,
          List.filter isdigit (chars sv) = before ++ chars s
          /\ length (chars s) = 4%nat)
  /\ (forall sv,
        v = Some sv ->
        (POSReceiptEvent.strip_card_last4 isdigit isspace v = None
         <-> (length (List.filter isdigit (chars sv)) < 4)%nat))
  /\ POSReceiptEvent.strip_card_last4 isdigit isspace (Some "4111111111114532")
     = Some "4532"
  /\ POSReceiptEvent.strip_card_last4 isdigit isspace (Some " 12-34 56 ")
     = Some "3456".
Proof.
  assert (G : forall sv,
    POSReceiptEvent.strip_card_last4 isdigit isspace (Some sv)
    = let digits := List.filter isdigit (chars sv) in
      if (4 <=? length digits)%nat
      then Some (join_chars (last_n 4 digits)) else None).
  { intros sv. rewrite strip_card_last4_unfold. cbv zeta.
    now rewrite (digits_of_strip isdigit isspace space_not_digit). }
  split; [|split; [|split; [|split; [|split; [|split; [|split]]]]]].
  - destruct (POSReceiptEvent.strip_card_last4 isdigit isspace v) as [s|] eqn:E;
      [right | left; reflexivity].
    exists s. split; [reflexivity|].
    exact (strip_card_last4_shape isdigit isspace v s E).
  - destruct v as [sv|]; [apply G | reflexivity].
  - rewrite G. cbn [chars list_ascii_of_string List.filter].
    rewrite !isdigit_ascii by (vm_compute; reflexivity). vm_compute. reflexivity.
  - rewrite G. cbn [chars list_ascii_of_string List.filter].
    rewrite !isdigit_ascii by (vm_compute; reflexivity). vm_compute. reflexivity.
  - intros sv s -> E. rewrite G in E. cbv zeta in E.
    destruct (Nat.leb_spec 4 (length (List.filter isdigit (chars sv)))) as [H|H];
      [|discriminate].
    injection E as <-. rewrite chars_join_chars.
    exists (take (length (List.filter isdigit (chars sv)) - 4)
              (List.filter isdigit (chars sv))).
    split.
    + unfold last_n. now rewrite take_drop.
    + apply length_last_n. exact H.
  - intros sv ->. rewrite G. cbv zeta.
    destruct (Nat.leb_spec 4 (length (List.filter isdigit (chars sv)))) as [H|H].
    + split; [discriminate | lia].
    + split; [intros _; exact H | reflexivity].
  - rewrite G. cbn [chars list_ascii_of_string List.filter].
    rewrite !isdigit_ascii by (vm_compute; reflexivity). vm_compute. reflexivity.
  - rewrite G. cbn [chars list_ascii_of_string List.filter].
    rewrite !isdigit_ascii by (vm_compute; reflexivity). vm_compute. reflexivity.
Qed.
End CardSuffixClaim.

Lemma latin1_space_not_digit c : latin1_isspace c = true -> latin1_isdigit c = false.
Proof.
  destruct c as [[] [] [] [] [] [] [] []]; vm_compute; congruence.
Qed.

Lemma latin1_isdigit_ascii c : code c < 128 -> latin1_isdigit c = ascii_isdigit c.
Proof.
  destruct c as [[] [] [] [] [] [] [] []]; vm_compute; congruence.
Qed.

Lemma card_suffix_normalization_witness :
  POSReceiptEvent.strip_card_last4 latin1_isdigit latin1_isspace (Some "****4532")
  = Some "4532"
  /\ POSReceiptEvent.strip_card_last4 latin1_isdigit latin1_isspace
       (Some "4111111111114532")
     = Some "4532".
Proof.
  pose proof (card_suffix_normalization latin1_isdigit latin1_isspace
                latin1_space_not_digit latin1_isdigit_ascii None)
    as (_ & _ & H1 & _ & _ & _ & H2 & _).
  split; [exact H1 | exact H2].
Defined.

Section TotalsClaim.
Import POSReceiptEvent.
Variables isdigit isspace re_digit : ascii -> bool.

(** C5.  For every receipt header constructed with subtotal_cents,
    tax_cents and total_cents all provided, construction succeeds only
    when |subtotal_cents + tax_cents - total_cents| <= 5, and fails with a
    validation error when the difference exceeds 5; the header
    {total 1862, subtotal 1757, tax 105} passes construction and the
    header {total 2000, subtotal 1000, tax 80} fails it. *)
Theorem totals_within_tolerance (d : fields) (sub tax total : Z) :
  f_subtotal_cents d = Some sub ->
  f_tax_cents d = Some tax ->
  f_total_cents d = Some total ->
  (forall ev, construct isdigit isspace re_digit d = Ok ev ->
     subtotal_cents ev = Some sub /\ tax_cents ev = Some tax
     /\ total_cents ev = total /\ Z.abs (sub + tax - total) <= 5)
  /\ (5 < Z.abs (sub + tax - total) ->
      exists e, construct isdigit isspace re_digit d = Err e)
  /\ is_ok (construct isdigit isspace re_digit
              (header "TXN-TEST-001" (Some 1757) (Some 105) 1862)) = true
  /\ construct isdigit isspace re_digit (header "TXN-BAD" (Some 1000) (Some 80) 2000)
     = Err [value_error (total_msg 1000 80 2000)].
Proof.
  intros Hsub Htax Htotal.
  assert (G : forall ev, construct isdigit isspace re_digit d = Ok ev ->
     subtotal_cents ev = Some sub /\ tax_cents ev = Some tax
     /\ total_cents ev = total /\ Z.abs (sub + tax - total) <= 5).
  { intros ev E.
    apply receipt_construct_Ok_inv in E
      as (its & _ & Hv & _ & _ & _ & _ & Ht & _).
    rewrite Htotal in Ht. injection Ht as ->.
    apply validate_total_Ok in Hv as [-> Hb]. cbn in *.
    repeat split; auto. }
  split; [exact G|split; [|split]].
  - intros Hd. destruct (construct isdigit isspace re_digit d) as [ev|e] eqn:E; [|eauto].
    destruct (G ev eq_refl) as (_ & _ & _ & Hb). lia.
  - reflexivity.
  - reflexivity.
Qed.
End TotalsClaim.

Lemma totals_within_tolerance_witness :
  exists e, POSReceiptEvent.construct latin1_isdigit latin1_isspace ascii_isdigit
              (header "TXN-BAD" (Some 1000) (Some 80) 2000) = Err e.
Proof.
  apply (proj1 (proj2
    (totals_within_tolerance latin1_isdigit latin1_isspace ascii_isdigit
       (header "TXN-BAD" (Some 1000) (Some 80) 2000) 1000 80 2000
       eq_refl eq_refl eq_refl))).
  vm_compute. reflexivity.
Defined.

Lemma line_item_errors_nonempty d es : POSLineItem.construct d = Err es -> es <> [].
Proof.
  unfold POSLineItem.construct; cbv zeta.
  destruct (required "product_desc" (POSLineItem.f_product_desc d)) as [desc|];
    [|intros [= <-]; discriminate].
  destruct (POSLineItem.v_quantity (POSLineItem.f_quantity d)) as [q|];
    [|intros [= <-]; discriminate].
  destruct (required "unit_price_cents" (POSLineItem.f_unit_price_cents d)) as [pu|];
    [|intros [= <-]; discriminate].
  destruct (int_ge0 "unit_price_cents" pu) as [pu'|]; [|intros [= <-]; discriminate].
  destruct (required "extended_cents" (POSLineItem.f_extended_cents d)) as [x|];
    [|intros [= <-]; cbn; destruct (POSLineItem.v_discount _); discriminate].
  destruct (int_ge0 "extended_cents" x) as [x'|];
    [|intros [= <-]; cbn; destruct (POSLineItem.v_discount _); discriminate].
  destruct (POSLineItem.v_discount (POSLineItem.f_discount_cents d)) as [dc|];
    [|intros [= <-]; discriminate].
  unfold POSLineItem.upc_or_sku_required.
  destruct (_ && _); intros [= <-]; discriminate.
Qed.

(** The items of an accepted event are line items the constructor made, one
    per keyword dict, in order. *)
Lemma v_items_Ok i ds its :
  POSReceiptEvent.v_items i ds = ([], its) ->
  Forall2 (fun d it => POSLineItem.construct d = Ok it) ds its.
Proof.
  revert i its. induction ds as [|d ds IH]; intros i its; cbn.
  - intros [= <-]. constructor.
  - destruct (POSReceiptEvent.v_items (S i) ds) as [errs its'] eqn:E.
    destruct (POSLineItem.construct d) as [it|es] eqn:Ed.
    + intros [= -> <-]. constructor; [exact Ed | eapply IH, E].
    + intros [= Hnil _]. apply app_eq_nil in Hnil as [Hnil _].
      apply fmap_nil_inv in Hnil. apply line_item_errors_nonempty in Ed. contradiction.
Qed.

Section IntegerCents.
Variables isdigit isspace re_digit : ascii -> bool.

Lemma item_amounts d it : POSLineItem.construct d = Ok it -> item_amounts_ok d it.
Proof.
  intros E. apply construct_Ok_inv in E as (_ & Hq & Hu & Hu0 & Hx & Hx0 & Hd & _).
  apply v_quantity_Ok in Hq. apply v_discount_Ok in Hd as [Hd0 Hd].
  unfold item_amounts_ok. intuition.
Qed.

(** C9, amended.  For every accepted line item the unit amount, the
    extended amount and the discount are integers (cents, never negative)
    and the quantity is a float >= 0 that need not be whole; the monetary
    values of an accepted event (its subtotal, tax and total, and the
    amounts of its items) are all integers. *)
Theorem monetary_values_are_integer_cents :
  (forall d it, POSLineItem.construct d = Ok it -> item_amounts_ok d it)
  /\ (forall d ev, POSReceiptEvent.construct isdigit isspace re_digit d = Ok ev ->
        POSReceiptEvent.f_total_cents d = Some (POSReceiptEvent.total_cents ev)
        /\ 0 <= POSReceiptEvent.total_cents ev
        /\ POSReceiptEvent.subtotal_cents ev = POSReceiptEvent.f_subtotal_cents d
        /\ (forall v, POSReceiptEvent.subtotal_cents ev = Some v -> 0 <= v)
        /\ POSReceiptEvent.tax_cents ev = POSReceiptEvent.f_tax_cents d
        /\ (forall v, POSReceiptEvent.tax_cents ev = Some v -> 0 <= v)
        /\ Forall2 item_amounts_ok (POSReceiptEvent.f_items d) (POSReceiptEvent.items ev))
  /\ (exists it, POSLineItem.construct bananas = Ok it
                 /\ float_is_integer (POSLineItem.quantity it) = false).
Proof.
  split; [exact item_amounts | split].
  - intros d ev E.
    apply receipt_construct_Ok_inv in E
      as (its & Hits & Hv & _ & _ & _ & _ & Ht & Ht0 & Hs0 & Hx0 & _).
    apply validate_total_Ok in Hv as [-> _]. cbn.
    repeat split; auto.
    apply v_items_Ok in Hits.
    eapply Forall2_impl; [exact Hits|]. intros d' it'. apply item_amounts.
  - eexists. split; [vm_compute; reflexivity | vm_compute; reflexivity].
Qed.
End IntegerCents.

Lemma monetary_values_are_integer_cents_witness :
  exists it, POSLineItem.construct bananas = Ok it /\ item_amounts_ok bananas it.
Proof.
  eexists. split; [vm_compute; reflexivity|].
  apply (proj1 (monetary_values_are_integer_cents latin1_isdigit latin1_isspace
                  ascii_isdigit)).
  vm_compute. reflexivity.
Defined.

(** ** The dual-write handler *)

Ltac run_M :=
  unfold critical_path, get_pool, with_connection, _write_to_lakebase,
    execute_insert, commit, zerobus_ingest_receipt, logger, modify, may_raise,
    bind, try_except, ret, raise;
  cbn -[String.append insert_on_conflict_do_nothing status_dict].

(** What the critical path does to the world, by outcome. *)
Lemma critical_path_Ok env r w d w1 :
  critical_path env r w = (Ok d, w1) ->
  d = status_dict "success"
  /\ receipt_transactions w1
     = receipt_transactions w
         ++ insert_on_conflict_do_nothing (insert_params r) (receipt_transactions w)
  /\ staged w1 = []
  /\ zerobus_calls w1 = zerobus_calls w
  /\ pool w1 = PoolOpen.
Proof.
  destruct env as [[e1|] [e2|] [e3|] [e4|] [] [e5|] zo], w as [[] lk tbl st calls lg];
    run_M; intros [= <- <-]; cbn -[insert_on_conflict_do_nothing];
    rewrite ?app_nil_r; auto.
Qed.

Lemma critical_path_Err env r w e w1 :
  critical_path env r w = (Err e, w1) ->
  zerobus_calls w1 = zerobus_calls w
  /\ (receipt_transactions w1 = receipt_transactions w
      \/ (release_exc env = Some e
          \/ commit_exc env = Some e /\ commit_applied env = true)
         /\ receipt_transactions w1
            = receipt_transactions w
                ++ insert_on_conflict_do_nothing (insert_params r) (receipt_transactions w)).
Proof.
  destruct env as [[e1|] [e2|] [e3|] [e4|] [] [e5|] zo], w as [[] lk tbl st calls lg];
    run_M; intros [= <- <-]; cbn -[insert_on_conflict_do_nothing];
    rewrite ?app_nil_r; auto 6.
Qed.

Lemma critical_path_healthy env r w :
  lakebase_healthy env -> exists w1, critical_path env r w = (Ok (status_dict "success"), w1).
Proof.
  destruct env as [e1 e2 e3 e4 ca e5 zo]. intros (H1 & H2 & H3 & H4 & H5). cbn in *. subst.
  destruct w as [[] lk tbl st calls lg]; run_M; eauto.
Qed.

(** The handler of step 1 turns any exception of the critical path into a
    [RuntimeError] raised from it. *)
Lemma lakebase_write_Err env r w exc w1 :
  critical_path env r w = (Err exc, w1) ->
  exists w',
    lakebase_write env r w
    = (Err (RuntimeError
              (critical_path_msg (POSReceiptEvent.transaction_id r) exc) exc), w')
    /\ zerobus_calls w' = zerobus_calls w
    /\ receipt_transactions w' = receipt_transactions w1.
Proof.
  intros H. unfold lakebase_write, try_except. rewrite H.
  unfold bind, logger, modify, raise. cbn -[String.append].
  eexists. split; [reflexivity|]. cbn.
  apply critical_path_Err in H as [Hc _]. auto.
Qed.

Lemma lakebase_write_Ok env r w d w1 :
  critical_path env r w = (Ok d, w1) -> lakebase_write env r w = (Ok d, w1).
Proof. intros H. unfold lakebase_write, try_except. now rewrite H. Qed.

(** C1.  For every receipt event, if the operational (Lakebase) write fails
    for any reason, write_receipt raises to the caller, and the analytics
    (Zerobus) delivery is never attempted in that call: the analytics client
    call count is 0. *)
Theorem lakebase_failure_raises_without_analytics
    (env : Env) (receipt : POSReceiptEvent.t) (w w1 : World) (exc : Exn) :
  critical_path env receipt w = (Err exc, w1) ->
  exists w',
    write_receipt env receipt w
    = (Err (RuntimeError
              (critical_path_msg (POSReceiptEvent.transaction_id receipt) exc) exc), w')
    /\ zerobus_calls w' = zerobus_calls w
    /\ (length (zerobus_calls w') - length (zerobus_calls w) = 0)%nat.
Proof.
  intros H. destruct (lakebase_write_Err _ _ _ _ _ H) as (w' & E & Hc & _).
  exists w'. unfold write_receipt, bind. rewrite E, Hc.
  split; [reflexivity | split; [reflexivity | lia]].
Qed.

(** C2.  For every receipt event whose operational (Lakebase) write
    succeeds, write_receipt never raises: if the analytics (Zerobus)
    delivery raises, it records the failed sub-result and returns a result
    with overall_status = "partial"; if both paths succeed, it returns
    overall_status = "success". *)
Theorem lakebase_success_never_raises
    (env : Env) (receipt : POSReceiptEvent.t) (w w1 : World) (lb : dict) :
  critical_path env receipt w = (Ok lb, w1) ->
  exists res w',
    write_receipt env receipt w = (Ok res, w')
    /\ DualWriteResult.transaction_id res = POSReceiptEvent.transaction_id receipt
    /\ DualWriteResult.lakebase_ok res = true
    /\ zerobus_calls w' = zerobus_calls w ++ [receipt]
    /\ (forall exc, zerobus_outcome env = Err exc ->
          DualWriteResult.overall_status res = partial
          /\ DualWriteResult.zerobus_ok res = false
          /\ dict_get (DualWriteResult.zerobus res) "status" = PStr "failed"
          /\ dict_get (DualWriteResult.zerobus res) "error" = PStr (exn_str exc))
    /\ (forall d, zerobus_outcome env = Ok d ->
          DualWriteResult.overall_status res = success
          /\ DualWriteResult.zerobus_ok res = true).
Proof.
  intros H. pose proof (critical_path_Ok _ _ _ _ _ H) as (-> & _ & _ & Hc & _).
  unfold write_receipt, bind at 1. rewrite (lakebase_write_Ok _ _ _ _ _ H).
  unfold zerobus_write, zerobus_ingest_receipt, try_except, bind, logger, modify, ret.
  destruct (zerobus_outcome env) as [d|exc] eqn:Ez; cbn -[String.append];
    eexists; eexists; (split; [reflexivity|]); cbn -[String.append];
    rewrite Hc; (split; [reflexivity|]); (split; [reflexivity|]);
    (split; [reflexivity|]); split.
  - intros exc [=].
  - intros d' _. split; reflexivity.
  - intros exc' [= <-]. repeat split; reflexivity.
  - intros d [=].
Qed.

Lemma lakebase_failure_raises_without_analytics_witness :
  exists w',
    write_receipt env_lakebase_down sample_receipt empty_world
    = (Err (RuntimeError (critical_path_msg "TXN-TEST-001" connection_refused)
              connection_refused), w')
    /\ zerobus_calls w' = zerobus_calls empty_world
    /\ (length (zerobus_calls w') - length (zerobus_calls empty_world) = 0)%nat.
Proof.
  eapply (lakebase_failure_raises_without_analytics env_lakebase_down sample_receipt
            empty_world).
  reflexivity.
Defined.

Lemma lakebase_success_never_raises_witness :
  exists res w',
    write_receipt env_zerobus_down sample_receipt empty_world = (Ok res, w')
    /\ DualWriteResult.overall_status res = partial.
Proof.
  destruct (lakebase_success_never_raises env_zerobus_down sample_receipt empty_world
              _ _ eq_refl) as (res & w' & E & _ & _ & _ & Hp & _).
  exists res, w'. split; [exact E|]. exact (proj1 (Hp _ eq_refl)).
Defined.

Example test_success_both_paths :
  exists res w', write_receipt env_ok sample_receipt empty_world = (Ok res, w')
    /\ DualWriteResult.overall_status res = success
    /\ DualWriteResult.lakebase_ok res = true
    /\ DualWriteResult.zerobus_ok res = true
    /\ DualWriteResult.transaction_id res = "TXN-TEST-001".
Proof. eexists. eexists. split; [reflexivity|]. repeat split; reflexivity. Qed.

(** ** The operational table *)

Lemma count_key_app k t1 t2 : count_key k (t1 ++ t2) = (count_key k t1 + count_key k t2)%nat.
Proof. unfold count_key. now rewrite List.filter_app, length_app. Qed.

Lemma existsb_has_key k t : existsb (has_key k) t = negb (count_key k t =? 0)%nat.
Proof.
  unfold count_key. induction t as [|r t IH]; cbn; [reflexivity|].
  destruct (has_key k r); cbn; [reflexivity | exact IH].
Qed.

Lemma has_key_eq k r : has_key k r = true <-> col_transaction_id r = k.
Proof. unfold has_key. apply String.eqb_eq. Qed.

(** The statement adds one row when the key is free and none otherwise. *)
Lemma count_key_insert row t :
  count_key (col_transaction_id row)
    (t ++ insert_on_conflict_do_nothing row t)
  = Nat.max 1 (count_key (col_transaction_id row) t).
Proof.
  rewrite count_key_app. unfold insert_on_conflict_do_nothing.
  rewrite existsb_has_key.
  destruct (Nat.eqb_spec (count_key (col_transaction_id row) t) 0) as [E|E]; cbn [negb].
  - rewrite E. unfold count_key; cbn. unfold has_key. now rewrite String.eqb_refl.
  - unfold count_key at 2; cbn. lia.
Qed.

Lemma count_key_insert_other row t k :
  col_transaction_id row <> k ->
  count_key k (t ++ insert_on_conflict_do_nothing row t) = count_key k t.
Proof.
  intros Hne. rewrite count_key_app. unfold insert_on_conflict_do_nothing.
  destruct (existsb _ t); unfold count_key at 2; cbn; [lia|].
  destruct (has_key k row) eqn:E; [|cbn; lia].
  apply has_key_eq in E. contradiction.
Qed.

Lemma insert_conflict row t :
  (0 < count_key (col_transaction_id row) t)%nat ->
  insert_on_conflict_do_nothing row t = [].
Proof.
  intros H. unfold insert_on_conflict_do_nothing. rewrite existsb_has_key.
  destruct (Nat.eqb_spec (count_key (col_transaction_id row) t) 0); [lia | reflexivity].
Qed.

Lemma select_key_insert_free row t :
  count_key (col_transaction_id row) t = 0%nat ->
  select_key (col_transaction_id row) (t ++ insert_on_conflict_do_nothing row t) = [row].
Proof.
  intros H. unfold select_key. rewrite List.filter_app.
  unfold count_key in H. apply length_zero_iff_nil in H. rewrite H.
  unfold insert_on_conflict_do_nothing. rewrite existsb_has_key.
  unfold count_key. rewrite H. cbn. unfold has_key. now rewrite String.eqb_refl.
Qed.

Lemma zerobus_write_table env r lb w :
  receipt_transactions (snd (zerobus_write env r lb w)) = receipt_transactions w
  /\ pool (snd (zerobus_write env r lb w)) = pool w
  /\ exists res, fst (zerobus_write env r lb w) = Ok res.
Proof.
  unfold zerobus_write, zerobus_ingest_receipt, try_except, bind, logger, modify, ret.
  destruct (zerobus_outcome env); cbn -[String.append]; eauto.
Qed.

(** After a critical path that went through, the call returns and the table
    is the one the critical path left. *)
Lemma write_receipt_after_Ok env r w lb w1 :
  critical_path env r w = (Ok lb, w1) ->
  exists res w',
    write_receipt env r w = (Ok res, w')
    /\ receipt_transactions w' = receipt_transactions w1.
Proof.
  intros H. unfold write_receipt, bind. rewrite (lakebase_write_Ok _ _ _ _ _ H).
  destruct (zerobus_write_table env r lb w1) as (Ht & _ & res & Hr).
  destruct (zerobus_write env r lb w1) as [o w'] eqn:E. cbn in *. subst o.
  eauto.
Qed.

(** Whatever happens, a call changes the table by its own insert at most. *)
Lemma write_receipt_table env r w :
  let t := receipt_transactions w in
  let t' := receipt_transactions (snd (write_receipt env r w)) in
  t' = t \/ t' = t ++ insert_on_conflict_do_nothing (insert_params r) t.
Proof.
  cbv zeta. destruct (critical_path env r w) as [[lb|e] w1] eqn:E.
  - destruct (write_receipt_after_Ok _ _ _ _ _ E) as (res & w' & Hw & Ht).
    rewrite Hw. cbn [snd]. rewrite Ht.
    apply critical_path_Ok in E as (_ & -> & _). auto.
  - destruct (lakebase_write_Err _ _ _ _ _ E) as (w' & Hw & _ & Ht).
    unfold write_receipt, bind. rewrite Hw. cbn [snd]. rewrite Ht.
    apply critical_path_Err in E as (_ & [->|[_ ->]]); auto.
Qed.

(** C3.  The operational-store write is idempotent on transaction_id:
    submitting a receipt with the same transaction_id twice leaves exactly
    one row for that key in the operational store; the duplicate submission
    is absorbed silently as a no-op (not an error) and does not modify the
    row written by the first submission. *)
Theorem operational_write_idempotent
    (env1 env2 : Env) (r1 r2 : POSReceiptEvent.t) (w : World) :
  let k := POSReceiptEvent.transaction_id r1 in
  lakebase_healthy env1 ->
  lakebase_healthy env2 ->
  POSReceiptEvent.transaction_id r2 = k ->
  (count_key k (receipt_transactions w) <= 1)%nat ->
  exists res1 w1 res2 w2,
    write_receipt env1 r1 w = (Ok res1, w1)
    /\ write_receipt env2 r2 w1 = (Ok res2, w2)
    /\ count_key k (receipt_transactions w1) = 1%nat
    /\ count_key k (receipt_transactions w2) = 1%nat
    /\ receipt_transactions w2 = receipt_transactions w1
    /\ (count_key k (receipt_transactions w) = 0%nat ->
        select_key k (receipt_transactions w2) = [insert_params r1])
    /\ (forall env, receipt_transactions (snd (write_receipt env r2 w1))
                    = receipt_transactions w1).
Proof.
  intros k H1 H2 Hk Hcount.
  destruct (critical_path_healthy env1 r1 w H1) as (c1 & E1).
  destruct (write_receipt_after_Ok _ _ _ _ _ E1) as (res1 & w1 & W1 & T1).
  apply critical_path_Ok in E1 as (_ & Tc1 & _). rewrite Tc1 in T1.
  assert (C1 : count_key k (receipt_transactions w1) = 1%nat).
  { rewrite T1. change k with (col_transaction_id (insert_params r1)).
    rewrite count_key_insert. cbn [insert_params col_transaction_id]. fold k. lia. }
  assert (N2 : insert_on_conflict_do_nothing (insert_params r2) (receipt_transactions w1) = []).
  { apply insert_conflict. cbn [insert_params col_transaction_id]. rewrite Hk, C1. lia. }
  destruct (critical_path_healthy env2 r2 w1 H2) as (c2 & E2).
  destruct (write_receipt_after_Ok _ _ _ _ _ E2) as (res2 & w2 & W2 & T2).
  apply critical_path_Ok in E2 as (_ & Tc2 & _). rewrite Tc2, N2, app_nil_r in T2.
  exists res1, w1, res2, w2.
  split; [exact W1 | split; [exact W2 | split; [exact C1 | split; [|split; [exact T2 | split]]]]].
  - now rewrite T2.
  - intros H0. rewrite T2, T1.
    change k with (col_transaction_id (insert_params r1)).
    apply select_key_insert_free. exact H0.
  - intros env. pose proof (write_receipt_table env r2 w1) as Ht. cbv zeta in Ht.
    rewrite N2, app_nil_r in Ht. destruct Ht; assumption.
Qed.

Lemma operational_write_idempotent_witness :
  exists res1 w1 res2 w2,
    write_receipt env_ok sample_receipt empty_world = (Ok res1, w1)
    /\ write_receipt env_zerobus_down sample_resubmitted w1 = (Ok res2, w2)
    /\ count_key "TXN-TEST-001" (receipt_transactions w2) = 1%nat
    /\ select_key "TXN-TEST-001" (receipt_transactions w2) = [insert_params sample_receipt].
Proof.
  destruct (operational_write_idempotent env_ok env_zerobus_down sample_receipt
              sample_resubmitted empty_world)
    as (res1 & w1 & res2 & w2 & W1 & W2 & _ & C2 & _ & S2 & _).
  - repeat split; reflexivity.
  - repeat split; reflexivity.
  - reflexivity.
  - vm_compute. lia.
  - exists res1, w1, res2, w2. repeat split; try assumption. apply S2. reflexivity.
Defined.

(** ** write_batch *)

Lemma zerobus_write_outcome env r lb w w' :
  fst (zerobus_write env r lb w) = fst (zerobus_write env r lb w').
Proof.
  unfold zerobus_write, zerobus_ingest_receipt, try_except, bind, logger, modify, ret.
  destruct (zerobus_outcome env); reflexivity.
Qed.

Lemma write_receipt_via_critical_Ok env r w lb w1 :
  critical_path env r w = (Ok lb, w1) ->
  write_receipt env r w = zerobus_write env r lb w1.
Proof.
  intros H. unfold write_receipt, bind. now rewrite (lakebase_write_Ok _ _ _ _ _ H).
Qed.

Lemma write_receipt_via_critical_Err env r w e w1 :
  critical_path env r w = (Err e, w1) ->
  exists e' w',
    lakebase_write env r w = (Err e', w')
    /\ fst (write_receipt env r w) = Err e'.
Proof.
  intros H. destruct (lakebase_write_Err _ _ _ _ _ H) as (w' & E & _).
  unfold write_receipt, bind. rewrite E. cbn. eauto.
Qed.

(** The pool, once open, stays open. *)
Lemma step_task_pool_open t w :
  pool w = PoolOpen -> pool (snd (step_task t w)) = PoolOpen.
Proof.
  intros Hp. destruct t as [env r|env r lb|out]; cbn [step_task].
  - destruct (critical_path env r w) as [[lb|e] w1] eqn:E.
    + rewrite (lakebase_write_Ok _ _ _ _ _ E). cbn.
      now apply critical_path_Ok in E as (_ & _ & _ & _ & ?).
    + unfold lakebase_write, try_except. rewrite E.
      unfold bind, logger, modify, raise. cbn -[String.append].
      revert E. destruct env as [[e1|] [e2|] [e3|] [e4|] [] [e5|] zo],
        w as [p lk tbl st calls lg]; cbn in Hp; subst p;
        run_M; intros [= <- <-]; reflexivity.
  - destruct (zerobus_write_table env r lb w) as (_ & Hpool & _).
    destruct (zerobus_write env r lb w) as [o w'] eqn:E. cbn in *. congruence.
  - exact Hp.
Qed.

(** With the pool open, the outcome of a call is a function of its receipt
    and of what its own collaborators do. *)
Lemma write_receipt_outcome_pool_open env r w w' :
  pool w = PoolOpen -> pool w' = PoolOpen ->
  fst (write_receipt env r w) = fst (write_receipt env r w').
Proof.
  intros Hp Hp'.
  destruct env as [[e1|] [e2|] [e3|] [e4|] [] [e5|] [d|ze]],
    w as [p lk tbl st calls lg], w' as [p' lk' tbl' st' calls' lg'];
    cbn in Hp, Hp'; subst p p';
    unfold write_receipt, lakebase_write, zerobus_write; run_M; reflexivity.
Qed.

Section BatchInvariant.
Variable P : World -> Prop.
Hypothesis P_step : forall t w, P w -> P (snd (step_task t w)).

Lemma step_task_for env r t w :
  P w -> task_for P env r t -> task_for P env r (fst (step_task t w)).
Proof.
  intros HP. destruct t as [env' r'|env' r' lb|out]; cbn [step_task task_for].
  - intros [-> ->].
    destruct (critical_path env r w) as [[lb|e] w1] eqn:E.
    + rewrite (lakebase_write_Ok _ _ _ _ _ E). cbn. eauto 10.
    + destruct (write_receipt_via_critical_Err _ _ _ _ _ E) as (e' & w' & Hl & Hw).
      rewrite Hl. cbn. exists w. split; [exact HP|]. now rewrite Hw.
  - intros (-> & -> & w0 & w1 & HP0 & E).
    destruct (zerobus_write env r lb w) as [o w'] eqn:Ez. cbn.
    exists w0. split; [exact HP0|].
    rewrite (write_receipt_via_critical_Ok _ _ _ _ _ E).
    rewrite (zerobus_write_outcome env r lb w1 w), Ez. reflexivity.
  - auto.
Qed.

Lemma spawn_tasks_for envs receipts : tasks_for P envs receipts (spawn envs receipts).
Proof.
  split; [apply length_imap|]. intros i r Hr. unfold spawn.
  rewrite list_lookup_imap, Hr. cbn. eexists; split; [reflexivity|]. cbn. auto.
Qed.

Lemma step_at_tasks_for envs receipts j ts w :
  P w -> tasks_for P envs receipts ts ->
  P (snd (step_at j ts w)) /\ tasks_for P envs receipts (fst (step_at j ts w)).
Proof.
  intros HP [Hlen Hts]. unfold step_at.
  destruct (ts !! j) as [t|] eqn:Ej; [|cbn; split; [exact HP | split; assumption]].
  pose proof (P_step t w HP) as HP'.
  destruct (step_task t w) as [t' w'] eqn:Es. cbn in *.
  split; [exact HP'|]. split; [now rewrite length_insert|].
  intros i r Hr. destruct (Hts i r Hr) as (ti & Hi & Hfor).
  destruct (decide (i = j)) as [->|Hne].
  - rewrite list_lookup_insert_eq by (eapply lookup_lt_Some; eauto).
    eexists; split; [reflexivity|].
    assert (ti = t) as -> by congruence.
    pose proof (step_task_for (envs j) r t w HP Hfor) as H. now rewrite Es in H.
  - rewrite list_lookup_insert_ne by congruence. eauto.
Qed.

Lemma run_tasks_for envs receipts sched ts w :
  P w -> tasks_for P envs receipts ts ->
  tasks_for P envs receipts (fst (run sched ts w)).
Proof.
  revert ts w. induction sched as [|j sched IH]; intros ts w HP Hts; cbn; [exact Hts|].
  destruct (step_at_tasks_for envs receipts j ts w HP Hts) as [HP' Hts'].
  destruct (step_at j ts w) as [ts' w']. cbn in *. apply IH; assumption.
Qed.
End BatchInvariant.

Lemma remaining_step_task t w : (remaining (fst (step_task t w)) <= pred (remaining t))%nat.
Proof.
  destruct t as [env r|env r lb|out]; cbn [step_task].
  - destruct (lakebase_write env r w) as [[lb|e] w']; cbn; lia.
  - destruct (zerobus_write env r lb w) as [o w']; cbn; lia.
  - cbn; lia.
Qed.

(** A task resumed [n] times has taken [n] of its steps, whatever the other
    tasks did in between. *)
Lemma run_remaining sched : forall ts w i t,
  ts !! i = Some t ->
  exists t', fst (run sched ts w) !! i = Some t'
             /\ (remaining t' <= remaining t - count_occ Nat.eq_dec sched i)%nat.
Proof.
  induction sched as [|j sched IH]; intros ts w i t Hi; cbn [run count_occ].
  - exists t. split; [exact Hi | lia].
  - unfold step_at. destruct (ts !! j) as [tj|] eqn:Ej.
    + pose proof (remaining_step_task tj w) as Hrem.
      destruct (step_task tj w) as [tj' w'] eqn:Es. cbn in Hrem.
      destruct (Nat.eq_dec j i) as [->|Hne].
      * assert (tj = t) as -> by congruence.
        destruct (IH (<[i:=tj']> ts) w' i tj') as (t' & Ht' & Hle).
        { apply list_lookup_insert_eq. eapply lookup_lt_Some; eauto. }
        exists t'. split; [exact Ht' | lia].
      * destruct (IH (<[j:=tj']> ts) w' i t) as (t' & Ht' & Hle).
        { rewrite list_lookup_insert_ne by congruence. exact Hi. }
        exists t'. split; [exact Ht' | lia].
    + destruct (Nat.eq_dec j i) as [->|Hne]; [congruence|].
      apply IH. exact Hi.
Qed.

Lemma remaining_0_Done t : remaining t = 0%nat -> exists out, t = Done out.
Proof. destruct t; cbn; try discriminate; eauto. Qed.

(** The sequential schedule resumes every task twice. *)
Lemma sequential_fair n i : (i < n)%nat -> count_occ Nat.eq_dec (sequential n) i = 2%nat.
Proof.
  unfold sequential.
  assert (G : forall m a, count_occ Nat.eq_dec (flat_map (fun j => [j; j]) (seq a m)) i
                          = if (a <=? i)%nat && (i <? a + m)%nat then 2%nat else 0%nat).
  { induction m as [|m IH]; intros a; cbn [seq flat_map].
    - cbn [count_occ].
      destruct (Nat.leb_spec a i), (Nat.ltb_spec i (a + 0)); cbn [andb]; try reflexivity; lia.
    - cbn [app count_occ]. rewrite IH.
      replace (a + S m)%nat with (S a + m)%nat by lia.
      destruct (Nat.eq_dec a i) as [->|Hne].
      + destruct (Nat.leb_spec (S i) i), (Nat.leb_spec i i), (Nat.ltb_spec i (S i + m));
          cbn [andb]; try reflexivity; lia.
      + destruct (Nat.leb_spec (S a) i), (Nat.leb_spec a i), (Nat.ltb_spec i (S a + m));
          cbn [andb]; try reflexivity; lia. }
  intros Hi. rewrite G.
  destruct (Nat.leb_spec 0 i), (Nat.ltb_spec i (0 + n)); cbn [andb]; try reflexivity; lia.
Qed.

(** Once the event loop has resumed every task twice, the batch returns. *)
Lemma write_batch_returns envs receipts sched w :
  (forall i, (i < length receipts)%nat -> (2 <= count_occ Nat.eq_dec sched i)%nat) ->
  exists res w', write_batch envs receipts sched w = Some (res, w').
Proof.
  intros Hfair. unfold write_batch.
  destruct (run sched (spawn envs receipts) w) as [ts w'] eqn:Er.
  assert (Hall : Forall (is_Some ∘ task_outcome) ts).
  { apply Forall_lookup. intros i t' Hi.
    assert (Hlt : (i < length receipts)%nat).
    { pose proof (run_tasks_for (fun _ => True) (fun _ _ _ => I) envs receipts sched
                    (spawn envs receipts) w I (spawn_tasks_for _ envs receipts)) as [Hl _].
      rewrite Er in Hl. cbn in Hl. rewrite <- Hl. eapply lookup_lt_Some; eauto. }
    destruct (lookup_lt_is_Some_2 receipts i Hlt) as [r Hr].
    destruct (run_remaining sched (spawn envs receipts) w i (Created (envs i) r))
      as (t'' & Ht'' & Hle).
    { unfold spawn. now rewrite list_lookup_imap, Hr. }
    rewrite Er in Ht''. cbn in Ht''. assert (t'' = t') as -> by congruence.
    specialize (Hfair i Hlt). cbn in Hle.
    destruct (remaining_0_Done t') as [out ->]; [lia|]. cbn. eauto. }
  apply mapM_is_Some_2 in Hall as [res Hres]. unfold gather. rewrite Hres. eauto.
Qed.

(** Whatever the schedule, the entries of the returned list are the outcomes
    of the calls, in the order of the receipts. *)
Lemma write_batch_entries envs receipts sched w res w' :
  write_batch envs receipts sched w = Some (res, w') ->
  length res = length receipts
  /\ forall i r, receipts !! i = Some r ->
       (exists wi, res !! i = Some (fst (write_receipt (envs i) r wi)))
       /\ (pool w = PoolOpen ->
           res !! i = Some (fst (write_receipt (envs i) r w)))
       /\ (lakebase_healthy (envs i) -> exists d, res !! i = Some (Ok d)).
Proof.
  intros Hb. unfold write_batch in Hb.
  destruct (run sched (spawn envs receipts) w) as [ts w''] eqn:Er.
  unfold gather in Hb. destruct (mapM task_outcome ts) as [res'|] eqn:Hm; [|discriminate].
  injection Hb as -> ->. apply mapM_Some in Hm.
  set (P := fun wi => pool w = PoolOpen -> pool wi = PoolOpen).
  assert (HPstep : forall t wi, P wi -> P (snd (step_task t wi))).
  { intros t wi HP Hw. apply step_task_pool_open. auto. }
  pose proof (run_tasks_for P HPstep envs receipts sched (spawn envs receipts) w
                (fun H => H) (spawn_tasks_for P envs receipts)) as [Hlen Hts].
  rewrite Er in Hlen, Hts. cbn in Hlen, Hts.
  split; [rewrite <- (Forall2_length _ _ _ Hm); exact Hlen|].
  intros i r Hr. destruct (Hts i r Hr) as (t & Hi & Hfor).
  destruct (Forall2_lookup_l _ _ _ _ _ Hm Hi) as (out & Hout & Ht).
  destruct t as [| |out']; cbn in Ht; try discriminate. injection Ht as ->.
  cbn in Hfor. destruct Hfor as (wi & HPwi & ->).
  split; [eauto | split].
  - intros Hopen. rewrite Hout. f_equal.
    apply write_receipt_outcome_pool_open; auto.
  - intros Hh. destruct (critical_path_healthy (envs i) r wi Hh) as (w1 & E).
    destruct (write_receipt_after_Ok _ _ _ _ _ E) as (d & w2 & Hw & _).
    exists d. rewrite Hout, Hw. reflexivity.
Qed.

(** Run one after the other, the tasks of a batch all finish. *)
Corollary write_batch_sequential_returns envs receipts w :
  exists res w', write_batch envs receipts (sequential (length receipts)) w = Some (res, w').
Proof.
  apply write_batch_returns. intros i Hi. rewrite sequential_fair by exact Hi. lia.
Qed.

(** C4.  For every list of receipts, write_batch returns a list of the same
    length, aligned with input order, whose i-th entry is the
    DualWriteResult of the i-th receipt on success or the raised exception
    on failure; a fatal failure of one item never aborts or changes the
    outcome of any other item.  Here: once the event loop has resumed every
    task twice the batch returns; and whatever the schedule and whatever the
    other items met, entry [i] is what [write_receipt] yields for receipt
    [i] under its own environment. *)
Theorem write_batch_aligned_and_isolated
    (envs : nat -> Env) (receipts : list POSReceiptEvent.t) (sched : list nat)
    (w : World) :
  ((forall i, (i < length receipts)%nat -> (2 <= count_occ Nat.eq_dec sched i)%nat) ->
   exists res w', write_batch envs receipts sched w = Some (res, w'))
  /\ (forall res w', write_batch envs receipts sched w = Some (res, w') ->
      length res = length receipts
      /\ forall i r, receipts !! i = Some r ->
           (exists wi, res !! i = Some (fst (write_receipt (envs i) r wi)))
           /\ (pool w = PoolOpen ->
               res !! i = Some (fst (write_receipt (envs i) r w)))
           /\ (lakebase_healthy (envs i) -> exists d, res !! i = Some (Ok d))).
Proof.
  split.
  - apply write_batch_returns.
  - apply write_batch_entries.
Qed.

Lemma write_batch_aligned_and_isolated_witness :
  exists res w',
    write_batch envs3 batch3 sched3 empty_world = Some (res, w')
    /\ length res = 3%nat
    /\ exists d0 e1 d2, res = [Ok d0; Err e1; Ok d2].
Proof.
  destruct (proj1 (write_batch_aligned_and_isolated envs3 batch3 sched3 empty_world))
    as (res & w' & E).
  { intros i Hi. destruct i as [|[|[|i]]]; cbn in *; lia. }
  destruct (proj2 (write_batch_aligned_and_isolated envs3 batch3 sched3 empty_world)
              res w' E) as [Hlen _].
  exists res, w'. split; [exact E | split; [exact Hlen|]].
  vm_compute in E. injection E as <- _. do 3 eexists. reflexivity.
Defined.

(** ** Reconciliation *)

Lemma fold_min_le l : forall x, fold_left Z.min l x <= x
  /\ forall y, In y l -> fold_left Z.min l x <= y.
Proof.
  induction l as [|a l IH]; intros x; cbn; [split; [lia | tauto]|].
  destruct (IH (Z.min x a)) as [H1 H2]. split; [lia|].
  intros y [<-|Hy]; [lia | auto].
Qed.

Lemma fold_max_ge l : forall x, x <= fold_left Z.max l x
  /\ forall y, In y l -> y <= fold_left Z.max l x.
Proof.
  induction l as [|a l IH]; intros x; cbn; [split; [lia | tauto]|].
  destruct (IH (Z.max x a)) as [H1 H2]. split; [lia|].
  intros y [<-|Hy]; [lia | auto].
Qed.

Lemma sql_min_spec l y : In y l -> exists m, sql_min l = Some m /\ m <= y.
Proof.
  destruct l as [|x l]; [intros []|]. intros Hy. eexists; split; [reflexivity|].
  destruct (fold_min_le l x) as [H1 H2]. destruct Hy as [<-|Hy]; auto.
Qed.

Lemma sql_max_spec l y : In y l -> exists m, sql_max l = Some m /\ y <= m.
Proof.
  destruct l as [|x l]; [intros []|]. intros Hy. eexists; split; [reflexivity|].
  destruct (fold_max_ge l x) as [H1 H2]. destruct Hy as [<-|Hy]; auto.
Qed.

Lemma filter_join_on_matches rt rls m :
  In m (List.filter (join_on rt) rls) -> exists k, rl_transaction_id m = Some k.
Proof.
  intros H. apply List.filter_In in H as [_ H]. unfold join_on in H.
  destruct (rl_transaction_id m); [eauto | discriminate].
Qed.

(** The rows the query aggregates are the left anti-join, within the
    window, each paired with NULLs. *)
Lemma gap_rows_anti_join now h rts rls :
  List.filter (where_gap now h) (left_join rts rls)
  = map (fun rt => (rt, None)) (anti_join now h rts rls).
Proof.
  unfold left_join, anti_join, in_lookup.
  induction rts as [|rt rts IH]; [reflexivity|].
  cbn [flat_map List.filter]. rewrite List.filter_app, IH. clear IH.
  assert (E : existsb (join_on rt) rls
              = negb (match List.filter (join_on rt) rls with [] => true | _ => false end)).
  { induction rls as [|m rls IHm]; cbn; [reflexivity|].
    destruct (join_on rt m); cbn; [reflexivity | exact IHm]. }
  rewrite E. destruct (List.filter (join_on rt) rls) as [|m ms] eqn:Ef; cbn [negb].
  - cbn. unfold where_gap at 1, in_window. cbn [fst snd].
    rewrite Z.geb_leb, andb_true_r.
    destruct (now - hours h <=? col_transaction_ts rt); reflexivity.
  - rewrite andb_false_r.
    assert (Hnone : List.filter (where_gap now h) (map (fun m0 => (rt, Some m0)) (m :: ms)) = []).
    { assert (Hall : forall m0, In m0 (m :: ms) -> exists k, rl_transaction_id m0 = Some k).
      { intros m0 Hm0. apply (filter_join_on_matches rt rls). now rewrite Ef. }
      clear Ef E. induction (m :: ms) as [|m0 l IHl]; [reflexivity|].
      cbn [map List.filter]. destruct (Hall m0 (or_introl eq_refl)) as [k Hk].
      unfold where_gap at 1. cbn [fst snd]. rewrite Hk, andb_false_r.
      apply IHl. intros ? ?. apply Hall. now right. }
    rewrite Hnone. reflexivity.
Qed.

Lemma in_lookup_false rls rt :
  in_lookup rls rt = false <->
  forall rl, In rl rls -> rl_transaction_id rl <> Some (col_transaction_id rt).
Proof.
  unfold in_lookup. split.
  - intros H rl Hrl Heq.
    assert (existsb (join_on rt) rls = true); [|congruence].
    apply existsb_exists. exists rl. split; [exact Hrl|].
    unfold join_on. rewrite Heq. apply String.eqb_refl.
  - intros H. destruct (existsb (join_on rt) rls) eqn:E; [|reflexivity].
    apply existsb_exists in E as (rl & Hrl & Hj). unfold join_on in Hj.
    destruct (rl_transaction_id rl) as [k|] eqn:Ek; [|discriminate].
    apply String.eqb_eq in Hj. exfalso. apply (H rl Hrl). congruence.
Qed.

Lemma cutoff_in_range_spec db h :
  cutoff_in_range db h = true
  <-> ts_min db <= now db - h * 3600 * 1000000 < ts_end db.
Proof.
  unfold cutoff_in_range, hours. rewrite andb_true_iff, Z.leb_le, Z.ltb_lt. tauto.
Qed.

Section ReconcileClaim.
Variable datetime_str : Z -> string.

(** The scan returns exactly when the import, the connection and the query
    raise nothing and the cutoff is a timestamp of the server; the report
    then aggregates the left anti-join. *)
Lemma reconcile_gaps_returns db lookback :
  psycopg_installed db = true -> connect_exc db = None -> query_exc db = None ->
  cutoff_in_range db (default 24 lookback) = true ->
  let missing := anti_join (now db) (default 24 lookback)
                   (tbl_receipt_transactions db) (tbl_receipt_lookup db) in
  exists line,
    reconcile_gaps datetime_str db lookback
    = Ok (gap_report datetime_str
            (Some (MkGapRow (Z.of_nat (length missing))
                     (sql_min (map col_transaction_ts missing))
                     (sql_max (map col_transaction_ts missing))))
            (default 24 lookback), line)
    /\ (fst line = WARNING <-> (0 < length missing)%nat).
Proof.
  intros Hp Hc Hq Hr. cbv zeta. unfold reconcile_gaps. rewrite Hp, Hc, Hq, Hr. cbn [negb].
  unfold gap_query. rewrite gap_rows_anti_join, length_map, map_map. cbn [fst].
  change (fun x : Row => col_transaction_ts x) with col_transaction_ts.
  eexists. split; [reflexivity|].
  cbn [gap_report gap_count row_gap_count].
  destruct (Z.gtb_spec (Z.of_nat (length (anti_join (now db) (default 24 lookback)
              (tbl_receipt_transactions db) (tbl_receipt_lookup db)))) 0); cbn [fst];
    split; try discriminate; try reflexivity; lia.
Qed.

Lemma reconcile_gaps_Ok_inv db lookback report line :
  reconcile_gaps datetime_str db lookback = Ok (report, line) ->
  psycopg_installed db = true /\ connect_exc db = None /\ query_exc db = None
  /\ cutoff_in_range db (default 24 lookback) = true.
Proof.
  unfold reconcile_gaps.
  destruct (psycopg_installed db); [|discriminate]. cbn [negb].
  destruct (connect_exc db); [discriminate|].
  destruct (query_exc db); [discriminate|].
  destruct (cutoff_in_range db (default 24 lookback)); [auto | discriminate].
Qed.

(** C8, amended.  The reconciliation scan computes its report by
    left-anti-joining the operational store against the analytics copy on
    transaction_id, restricted to the transactions whose timestamp is not
    older than the cutoff NOW() - lookback_hours (default 24), an hour being
    3600 * 1000000 microseconds; the window has no upper end, so a row dated
    ahead of the clock is inside it.  Whenever the query runs, that is when
    the import, the connection and the statement raise nothing and the
    cutoff is a timestamp of the server: if the operational store contains a
    transaction T1 not older than the cutoff that the analytics copy lacks,
    the report has gap_count >= 1 with oldest_missing_ts <= T1's timestamp
    <= newest_missing_ts; if every operational transaction not older than
    the cutoff is present in the analytics copy, gap_count = 0.  When the
    cutoff is not a timestamp of the server the scan raises. *)
Theorem reconcile_gaps_reports_anti_join (db : Lakebase) (lookback : option Z) :
  psycopg_installed db = true ->
  connect_exc db = None ->
  query_exc db = None ->
  let h := default 24 lookback in
  let cutoff := now db - h * 3600 * 1000000 in
  let rts := tbl_receipt_transactions db in
  let rls := tbl_receipt_lookup db in
  (ts_min db <= cutoff < ts_end db ->
   exists report line,
     reconcile_gaps datetime_str db lookback = Ok (report, line)
     /\ lookback_hours report = h
     /\ gap_count report
        = Z.of_nat (length (List.filter
                              (fun rt => (cutoff <=? col_transaction_ts rt)
                                         && negb (existsb (join_on rt) rls)) rts))
     /\ (forall T1,
           In T1 rts ->
           cutoff <= col_transaction_ts T1 ->
           (forall rl, In rl rls -> rl_transaction_id rl <> Some (col_transaction_id T1)) ->
           1 <= gap_count report
           /\ exists lo hi,
                oldest_missing_ts report = Some (datetime_str lo)
                /\ newest_missing_ts report = Some (datetime_str hi)
                /\ lo <= col_transaction_ts T1 <= hi)
     /\ ((forall t,
            In t rts ->
            cutoff <= col_transaction_ts t ->
            exists rl, In rl rls /\ rl_transaction_id rl = Some (col_transaction_id t)) ->
         gap_count report = 0))
  /\ (~ (ts_min db <= cutoff < ts_end db) ->
      exists e, reconcile_gaps datetime_str db lookback = Err e).
Proof.
  intros Hpsy Hconn Hq h cutoff rts rls. split.
  - intros Hrange. apply cutoff_in_range_spec in Hrange.
    destruct (reconcile_gaps_returns db lookback Hpsy Hconn Hq Hrange) as (line & E & _).
    cbv zeta in E. fold h rts rls in E.
    eexists. exists line. split; [exact E|].
    cbn [gap_report gap_count oldest_missing_ts newest_missing_ts lookback_hours
           row_gap_count row_oldest_missing_ts row_newest_missing_ts].
    change (anti_join (now db) h rts rls)
      with (List.filter (fun rt => (cutoff <=? col_transaction_ts rt)
                                   && negb (existsb (join_on rt) rls)) rts).
    set (missing := List.filter _ rts).
    split; [reflexivity | split; [reflexivity | split]].
    + intros T1 Hin Hwin Hlacks.
      assert (Hanti : In T1 missing).
      { apply List.filter_In. split; [exact Hin|].
        apply andb_true_intro. split.
        - now apply Z.leb_le.
        - apply negb_true_iff, (in_lookup_false rls T1). exact Hlacks. }
      split.
      * destruct missing; [destruct Hanti | cbn; lia].
      * pose proof (in_map col_transaction_ts _ _ Hanti) as Hts.
        destruct (sql_min_spec _ _ Hts) as (lo & -> & Hlo).
        destruct (sql_max_spec _ _ Hts) as (hi & -> & Hhi).
        exists lo, hi. auto.
    + intros Hall.
      assert (Hnil : missing = []).
      { destruct missing as [|t l] eqn:E'; [reflexivity|].
        assert (Ht : In t missing) by (rewrite E'; now left).
        apply List.filter_In in Ht as [Hin Hb].
        apply andb_prop in Hb as [Hw Hl].
        apply Z.leb_le in Hw. apply negb_true_iff in Hl.
        destruct (Hall t Hin Hw) as (rl & Hrl & Hk).
        exfalso. exact (proj1 (in_lookup_false rls t) Hl rl Hrl Hk). }
      rewrite Hnil. reflexivity.
  - intros Hout. unfold reconcile_gaps. rewrite Hpsy, Hconn, Hq. cbn [negb].
    destruct (cutoff_in_range db (default 24 lookback)) eqn:Er; [|cbn; eauto].
    apply cutoff_in_range_spec in Er. contradiction.
Qed.
End ReconcileClaim.

(** C8, as stated, fails: "within the last lookback_hours" has an upper
    end, the clock, and the scan has none.  With one operational row dated
    1000 hours ahead and an empty analytics copy, every transaction of the
    last 24 hours is in the analytics copy (there is none), and the scan
    reports a gap. *)
Lemma gap_counts_rows_dated_ahead :
  ~ (forall db report line,
       reconcile_gaps str_int db None = Ok (report, line) ->
       (forall t, In t (tbl_receipt_transactions db) ->
          now db - 24 * 3600 * 1000000 <= col_transaction_ts t <= now db ->
          exists rl, In rl (tbl_receipt_lookup db)
                     /\ rl_transaction_id rl = Some (col_transaction_id t)) ->
       gap_count report = 0).
Proof.
  intros H.
  destruct (reconcile_gaps str_int lakebase_with_row_ahead None) as [[report line]|e] eqn:E;
    [|vm_compute in E; discriminate].
  specialize (H lakebase_with_row_ahead report line E).
  assert (Hg : gap_count report = 1) by (vm_compute in E; injection E as <- _; reflexivity).
  rewrite H in Hg; [discriminate|].
  intros t [<-|[]] Hw. exfalso. vm_compute in Hw. destruct Hw as [_ Hw]. apply Hw. reflexivity.
Qed.

Lemma reconcile_gaps_reports_anti_join_witness :
  exists report line,
    reconcile_gaps str_int sample_lakebase None = Ok (report, line)
    /\ gap_count report = 1
    /\ oldest_missing_ts report = Some (str_int sample_ts).
Proof.
  pose proof (reconcile_gaps_reports_anti_join str_int sample_lakebase None
                eq_refl eq_refl eq_refl) as H.
  cbv zeta in H. destruct H as [H _].
  destruct H as (report & line & E & _ & Hc & _); [vm_compute; split; [discriminate | reflexivity]|].
  exists report, line. split; [exact E|]. split.
  - rewrite Hc. vm_compute. reflexivity.
  - vm_compute in E. injection E as <- _. reflexivity.
Defined.

(** A lookback of 100000000 hours puts the cutoff before the first timestamp
    of the server: the scan raises. *)
Example reconcile_gaps_lookback_out_of_range :
  exists e, reconcile_gaps str_int sample_lakebase (Some 100000000) = Err e
            /\ exn_cls e = "DatetimeFieldOverflow".
Proof. eexists. split; reflexivity. Qed.

Example test_item_summary_top_three_plus_more :
  POSReceiptEvent.item_summary
    (POSReceiptEvent.Make "TXN-005" "S1" "Store One" None None None sample_ts
       None None 500 None None five_items)
  = "Item 0, Item 1, Item 2 + 2 more".
Proof. vm_compute. reflexivity. Qed.

(** * Further properties of the event model *)

Lemma filter_all_true (f : ascii -> bool) cs :
  Forall (fun c => f c = true) cs -> List.filter f cs = cs.
Proof.
  induction 1 as [|c cs Hc _ IH]; cbn; [reflexivity|]. now rewrite Hc, IH.
Qed.

Lemma length_chars s : length (chars s) = String.length s.
Proof.
  unfold chars. induction s as [|c s IH]; cbn; [reflexivity | now f_equal].
Qed.

Section CardSuffixMore.
Variables isdigit isspace re_digit : ascii -> bool.
Hypothesis space_not_digit : forall c, isspace c = true -> isdigit c = false.

(** The normalized suffix is a function of the digits of the input. *)
Lemma strip_card_last4_digits sv :
  POSReceiptEvent.strip_card_last4 isdigit isspace (Some sv)
  = let digits := List.filter isdigit (chars sv) in
    if (4 <=? length digits)%nat then Some (join_chars (last_n 4 digits)) else None.
Proof.
  rewrite strip_card_last4_unfold. cbv zeta.
  now rewrite (digits_of_strip isdigit isspace space_not_digit).
Qed.

(** Normalizing a card suffix twice is normalizing it once: what
    [strip_card_last4] returns is a value it maps to itself. *)
Theorem strip_card_last4_idempotent (v : option string) :
  POSReceiptEvent.strip_card_last4 isdigit isspace
    (POSReceiptEvent.strip_card_last4 isdigit isspace v)
  = POSReceiptEvent.strip_card_last4 isdigit isspace v.
Proof.
  destruct (POSReceiptEvent.strip_card_last4 isdigit isspace v) as [s|] eqn:E;
    [|reflexivity].
  apply strip_card_last4_shape in E as [Hlen Hdig].
  rewrite strip_card_last4_digits. cbv zeta.
  rewrite (filter_all_true isdigit _ Hdig).
  assert (Hl : length (chars s) = 4%nat).
  { now rewrite length_chars. }
  rewrite Hl. unfold last_n. rewrite Hl.
  change (drop (4 - 4) (chars s)) with (chars s).
  change (4 <=? 4)%nat with true. cbv iota.
  now rewrite join_chars_chars.
Qed.
End CardSuffixMore.

Lemma strip_card_last4_idempotent_witness :
  POSReceiptEvent.strip_card_last4 latin1_isdigit latin1_isspace
    (POSReceiptEvent.strip_card_last4 latin1_isdigit latin1_isspace (Some " 1234-5678 "))
  = POSReceiptEvent.strip_card_last4 latin1_isdigit latin1_isspace (Some " 1234-5678 ").
Proof.
  exact (strip_card_last4_idempotent latin1_isdigit latin1_isspace
           latin1_space_not_digit (Some " 1234-5678 ")).
Defined.

Section CardField.
Variables isdigit isspace re_digit : ascii -> bool.

Lemma v_card_last4_cases o :
  match POSReceiptEvent.v_card_last4 isdigit isspace re_digit o with
  | Ok None => POSReceiptEvent.strip_card_last4 isdigit isspace o = None
  | Ok (Some s) =>
      POSReceiptEvent.strip_card_last4 isdigit isspace o = Some s
      /\ String.length s = 4%nat
      /\ Forall (fun c => re_digit c = true) (chars s)
      /\ Forall (fun c => isdigit c = true) (chars s)
  | Err e =>
      e = string_pattern_mismatch "card_last4"
      /\ exists s, POSReceiptEvent.strip_card_last4 isdigit isspace o = Some s
  end.
Proof.
  unfold POSReceiptEvent.v_card_last4.
  destruct (POSReceiptEvent.strip_card_last4 isdigit isspace o) as [s|] eqn:E;
    [|reflexivity].
  destruct (strip_card_last4_shape isdigit isspace o s E) as [Hlen Hdig].
  unfold str_len. rewrite Hlen. cbn [Z.of_nat Pos.of_succ_nat Pos.succ Z.ltb Z.gtb Z.compare Pos.compare Pos.compare_cont].
  destruct (forallb re_digit (chars s)) eqn:Ef.
  - repeat split; auto. apply Forall_forall. intros c Hc.
    rewrite forallb_forall in Ef. apply Ef. now apply list_elem_of_In.
  - split; eauto.
Qed.

(** The card suffix of an accepted event is null or four characters, each a
    digit for [str.isdigit] and for the pattern; the length bounds of the
    field never reject, so the only error the field can report is a pattern
    mismatch. *)
Theorem card_last4_of_accepted_event (d : POSReceiptEvent.fields) :
  (forall ev, POSReceiptEvent.construct isdigit isspace re_digit d = Ok ev ->
     POSReceiptEvent.card_last4 ev
     = POSReceiptEvent.strip_card_last4 isdigit isspace (POSReceiptEvent.f_card_last4 d)
     /\ forall s, POSReceiptEvent.card_last4 ev = Some s ->
          String.length s = 4%nat
          /\ Forall (fun c => re_digit c = true) (chars s)
          /\ Forall (fun c => isdigit c = true) (chars s))
  /\ (forall e, POSReceiptEvent.v_card_last4 isdigit isspace re_digit
                  (POSReceiptEvent.f_card_last4 d) = Err e ->
        e = string_pattern_mismatch "card_last4"
        /\ exists es, POSReceiptEvent.construct isdigit isspace re_digit d = Err es
                      /\ In e es).
Proof.
  split.
  - intros ev E.
    apply receipt_construct_Ok_inv in E as (_ & _ & _ & _ & _ & _ & _ & _ & _ & _ & _ & _ & Hc).
    pose proof (v_card_last4_cases (POSReceiptEvent.f_card_last4 d)) as H.
    rewrite Hc in H. destruct (POSReceiptEvent.card_last4 ev) as [s|].
    + destruct H as (-> & H). split; [reflexivity|]. intros s' [= <-]. exact H.
    + rewrite H. split; [reflexivity | discriminate].
  - intros e He.
    pose proof (v_card_last4_cases (POSReceiptEvent.f_card_last4 d)) as H.
    rewrite He in H. destruct H as [-> _]. split; [reflexivity|].
    unfold POSReceiptEvent.construct; cbv zeta. rewrite He.
    destruct (POSReceiptEvent.v_items 0 (POSReceiptEvent.f_items d)) as [errs its].
    destruct (required "transaction_id" _), (required "store_id" _),
      (required "store_name" _), (required "transaction_ts" _),
      (opt_int_ge0 "subtotal_cents" _), (opt_int_ge0 "tax_cents" _),
      (match required "total_cents" _ with Ok v => _ | Err e => _ end),
      (POSReceiptEvent.v_tender_type _);
      eexists; (split; [reflexivity|]); cbn [errs_of];
      repeat (apply in_or_app; first [left; now left | right]); now left.
Qed.
End CardField.

Lemma card_last4_of_accepted_event_witness :
  exists es,
    POSReceiptEvent.construct latin1_isdigit latin1_isspace ascii_isdigit
      (POSReceiptEvent.Fields (Some "TXN-X") (Some "S1") (Some "Store One") None None None
         (Some sample_ts) None None (Some 500) None
         (Some (String (ascii_of_nat 178) "123")) []) = Err es
    /\ In (string_pattern_mismatch "card_last4") es.
Proof.
  destruct (proj2 (card_last4_of_accepted_event latin1_isdigit latin1_isspace ascii_isdigit
              (POSReceiptEvent.Fields (Some "TXN-X") (Some "S1") (Some "Store One") None
                 None None (Some sample_ts) None None (Some 500) None
                 (Some (String (ascii_of_nat 178) "123")) []))
              (string_pattern_mismatch "card_last4")) as [_ H].
  - vm_compute. reflexivity.
  - exact H.
Defined.

Section TotalsMore.
Import POSReceiptEvent.
Variables isdigit isspace re_digit : ascii -> bool.

Lemma opt_int_ge0_intro loc o :
  (forall v, o = Some v -> 0 <= v) -> opt_int_ge0 loc o = Ok o.
Proof.
  intros H. destruct o as [v|]; cbn; [|reflexivity].
  destruct (Z.leb_spec 0 v) as [Hv|Hv]; [reflexivity|].
  specialize (H v eq_refl). lia.
Qed.

(** Among the headers that differ in [total_cents] only, the accepted ones
    are those whose total is not negative and, when subtotal and tax are
    both given, within 5 of their sum (5 included); with either of the two
    absent every total >= 0 is accepted. *)
Theorem total_accepted_iff_within_tolerance (d : fields) (ev : t) (total' : Z) :
  construct isdigit isspace re_digit d = Ok ev ->
  (is_ok (construct isdigit isspace re_digit (with_total total' d)) = true
   <-> 0 <= total'
       /\ forall sub tax, f_subtotal_cents d = Some sub -> f_tax_cents d = Some tax ->
                          Z.abs (sub + tax - total') <= 5).
Proof.
  intros E.
  apply receipt_construct_Ok_inv in E
    as (its & Hits & _ & Hid & Hst & Hnm & Hts & _ & _ & Hs0 & Ht0 & Hten & Hcard).
  unfold construct, with_total; cbv zeta.
  cbn [f_transaction_id f_store_id f_store_name f_pos_terminal_id f_cashier_id
         f_customer_id f_transaction_ts f_subtotal_cents f_tax_cents f_total_cents
         f_tender_type f_card_last4 f_items].
  rewrite Hid, Hst, Hnm, Hts, Hten, Hcard, Hits. cbn [required].
  rewrite (opt_int_ge0_intro _ _ Hs0), (opt_int_ge0_intro _ _ Ht0).
  unfold int_ge0. destruct (Z.leb_spec 0 total') as [Hv|Hv].
  - unfold validate_total. cbn [subtotal_cents tax_cents total_cents].
    destruct (f_subtotal_cents d) as [sub|], (f_tax_cents d) as [tax|];
      try (cbn; split; [intros _; split; [exact Hv | intros; discriminate] | reflexivity]).
    destruct (Z.gtb_spec (Z.abs (sub + tax - total')) 5) as [Hd|Hd]; cbn [is_ok].
    + split; [discriminate|]. intros [_ H]. specialize (H sub tax eq_refl eq_refl). lia.
    + split; [|reflexivity]. intros _. split; [exact Hv|].
      intros ? ? [= <-] [= <-]. exact Hd.
  - cbn. split; [discriminate | intros [H _]; lia].
Qed.
End TotalsMore.

Lemma total_accepted_iff_within_tolerance_witness :
  is_ok (POSReceiptEvent.construct latin1_isdigit latin1_isspace ascii_isdigit
           (with_total 1085 (header "TXN-002" (Some 1000) (Some 80) 1083))) = true
  /\ is_ok (POSReceiptEvent.construct latin1_isdigit latin1_isspace ascii_isdigit
              (with_total 1086 (header "TXN-002" (Some 1000) (Some 80) 1083))) = false.
Proof.
  split.
  - eapply (total_accepted_iff_within_tolerance latin1_isdigit latin1_isspace ascii_isdigit
              (header "TXN-002" (Some 1000) (Some 80) 1083) _ 1085).
    + vm_compute. reflexivity.
    + split; [lia|]. intros sub tax [= <-] [= <-]. vm_compute. discriminate.
  - reflexivity.
Defined.

(** * Further properties of the handler *)

Lemma critical_path_Err_source env r w e w1 :
  critical_path env r w = (Err e, w1) ->
  In (Some e) [pool_open_exc env; acquire_exc env; execute_exc env; commit_exc env;
               release_exc env].
Proof.
  destruct env as [[e1|] [e2|] [e3|] [e4|] [] [e5|] zo], w as [[] lk tbl st calls lg];
    run_M; intros [= <- <-]; cbn; auto 10.
Qed.

(** Every outcome of [write_receipt]: it returns a result whose Lakebase
    part is a success and whose overall status is "success" or "partial",
    never "failed", "success" exactly when the Zerobus part is a success;
    or it raises a RuntimeError whose cause is an exception of the Lakebase
    path.  An exception of Zerobus is never raised. *)
Theorem write_receipt_outcomes (env : Env) (receipt : POSReceiptEvent.t) (w : World) :
  match fst (write_receipt env receipt w) with
  | Ok res =>
      DualWriteResult.lakebase res = status_dict "success"
      /\ DualWriteResult.lakebase_ok res = true
      /\ DualWriteResult.overall_status res <> failed
      /\ (DualWriteResult.overall_status res = success
          <-> DualWriteResult.zerobus_ok res = true)
      /\ (DualWriteResult.overall_status res = success
          <-> exists d, zerobus_outcome env = Ok d)
  | Err e =>
      exn_cls e = "RuntimeError"
      /\ exists exc,
           exn_cause e = Some exc
           /\ In (Some exc) [pool_open_exc env; acquire_exc env; execute_exc env;
                             commit_exc env; release_exc env]
  end.
Proof.
  destruct (critical_path env receipt w) as [[lb|exc] w1] eqn:E.
  - pose proof (critical_path_Ok _ _ _ _ _ E) as (-> & _).
    rewrite (write_receipt_via_critical_Ok _ _ _ _ _ E).
    unfold zerobus_write, zerobus_ingest_receipt, try_except, bind, logger, modify, ret.
    destruct (zerobus_outcome env) as [d|ze]; cbn -[String.append status_dict].
    + repeat split; try reflexivity; try discriminate; eauto.
    + repeat split; try reflexivity; try discriminate.
      intros [d Hd]. discriminate.
  - destruct (lakebase_write_Err _ _ _ _ _ E) as (w' & Hl & _).
    unfold write_receipt, bind. rewrite Hl. cbn.
    split; [reflexivity|]. exists exc. split; [reflexivity|].
    exact (critical_path_Err_source _ _ _ _ _ E).
Qed.

Lemma get_pool_cases env w :
  match get_pool env w with
  | (Ok _, w1) =>
      pool w1 = PoolOpen
      /\ (pool w = PoolOpen -> w1 = w)
      /\ (pool w <> PoolOpen -> pool_open_exc env = None /\ pool_lock w1 = true)
  | (Err e, w1) =>
      pool w <> PoolOpen /\ pool_open_exc env = Some e
      /\ pool w1 = PoolClosed /\ pool_lock w1 = true
  end
  /\ receipt_transactions (snd (get_pool env w)) = receipt_transactions w
  /\ zerobus_calls (snd (get_pool env w)) = zerobus_calls w.
Proof.
  destruct env as [[e1|] e2 e3 e4 ca e5 zo], w as [[] lk tbl st calls lg];
    unfold get_pool, logger, modify, may_raise, bind, ret, raise; cbn;
    repeat split; try reflexivity; try discriminate; try congruence.
Qed.

(** Once [get_pool] has returned, the pool is open and every later call is
    the fast path: it returns at once, changes nothing and cannot raise,
    whatever opening a pool would do by then. *)
Theorem get_pool_open_then_fast_path (env env' : Env) (w w1 : World) :
  get_pool env w = (Ok tt, w1) ->
  pool w1 = PoolOpen /\ get_pool env' w1 = (Ok tt, w1).
Proof.
  intros H. pose proof (get_pool_cases env w) as [Hc _]. rewrite H in Hc.
  destruct Hc as (Hopen & _). split; [exact Hopen|].
  unfold get_pool. rewrite Hopen. reflexivity.
Qed.

Lemma get_pool_open_then_fast_path_witness :
  exists w1, get_pool env_ok empty_world = (Ok tt, w1)
             /\ get_pool env_lakebase_down w1 = (Ok tt, w1).
Proof.
  eexists. split; [reflexivity|].
  exact (proj2 (get_pool_open_then_fast_path env_ok env_lakebase_down empty_world _ eq_refl)).
Defined.

(** A call that raises has not called Zerobus and has changed the table by
    its own insert at most.  When no commit was attempted, the exception
    coming from the pool, from acquiring the connection or from the INSERT,
    the table is as it was; after an exception of the commit or of leaving
    the connection block the row may be there although the caller saw a
    failure. *)
Theorem failed_write_changes_table_only_after_commit
    (env : Env) (receipt : POSReceiptEvent.t) (w w' : World) (e : Exn) :
  write_receipt env receipt w = (Err e, w') ->
  zerobus_calls w' = zerobus_calls w
  /\ (commit_exc env = None -> release_exc env = None ->
      receipt_transactions w' = receipt_transactions w)
  /\ (receipt_transactions w' = receipt_transactions w
      \/ receipt_transactions w'
         = receipt_transactions w
             ++ insert_on_conflict_do_nothing (insert_params receipt)
                  (receipt_transactions w)).
Proof.
  intros H. destruct (critical_path env receipt w) as [[lb|exc] w1] eqn:E.
  - destruct (write_receipt_after_Ok _ _ _ _ _ E) as (res & w2 & Hw & _). congruence.
  - destruct (lakebase_write_Err _ _ _ _ _ E) as (w2 & Hl & Hc & Ht).
    unfold write_receipt, bind in H. rewrite Hl in H. injection H as _ <-.
    apply critical_path_Err in E as (_ & Hcase). rewrite Ht.
    split; [exact Hc | split].
    + intros Hcm Hr.
      destruct Hcase as [Hsame|[[Hrel|[Hcm' _]] _]]; [exact Hsame | congruence | congruence].
    + destruct Hcase as [Hsame|[_ Hadd]]; auto.
Qed.

Lemma failed_write_changes_table_only_after_commit_witness :
  exists e w',
    write_receipt env_release_fails sample_receipt empty_world = (Err e, w')
    /\ receipt_transactions w' = [insert_params sample_receipt].
Proof.
  eexists. eexists. split; [reflexivity|].
  destruct (failed_write_changes_table_only_after_commit env_release_fails sample_receipt
              empty_world _ _ eq_refl) as (_ & _ & [H|H]); [|exact H].
  vm_compute in H. discriminate.
Defined.

(** Both outcomes of a commit that raises: the row is there when the server
    had committed, and is not when it had not; the caller sees the same
    failure. *)
Example commit_failure_both_outcomes :
  (exists e w', write_receipt env_commit_reply_lost sample_receipt empty_world = (Err e, w')
                /\ receipt_transactions w' = [insert_params sample_receipt]
                /\ zerobus_calls w' = [])
  /\ (exists e w', write_receipt env_commit_fails sample_receipt empty_world = (Err e, w')
                   /\ receipt_transactions w' = []
                   /\ zerobus_calls w' = []).
Proof.
  split; eexists; eexists; (split; [reflexivity|]); split; reflexivity.
Qed.

Lemma count_key_grows row t k :
  (count_key k t <= count_key k (t ++ insert_on_conflict_do_nothing row t))%nat
  /\ (count_key k t <= 1 -> count_key k (t ++ insert_on_conflict_do_nothing row t) <= 1)%nat.
Proof.
  destruct (String.eqb_spec (col_transaction_id row) k) as [<-|Hne].
  - rewrite count_key_insert. lia.
  - rewrite (count_key_insert_other row t k Hne). lia.
Qed.

(** A retry is safe whatever the first attempt did: after a call that
    returned or raised at any point, a second call for the same receipt
    that meets a working Lakebase returns and leaves exactly one row for
    the transaction. *)
Theorem retry_after_any_failure_leaves_one_row
    (env1 env2 : Env) (receipt : POSReceiptEvent.t) (w : World) :
  let k := POSReceiptEvent.transaction_id receipt in
  lakebase_healthy env2 ->
  (count_key k (receipt_transactions w) <= 1)%nat ->
  exists res w2,
    write_receipt env2 receipt (snd (write_receipt env1 receipt w)) = (Ok res, w2)
    /\ count_key k (receipt_transactions w2) = 1%nat
    /\ (count_key k (receipt_transactions w) = 0%nat ->
        select_key k (receipt_transactions w2) = [insert_params receipt]).
Proof.
  intros k H2 Hc.
  pose proof (write_receipt_table env1 receipt w) as Ht1. cbv zeta in Ht1.
  set (w1 := snd (write_receipt env1 receipt w)) in *.
  destruct (critical_path_healthy env2 receipt w1 H2) as (c2 & E2).
  destruct (write_receipt_after_Ok _ _ _ _ _ E2) as (res & w2 & W2 & T2).
  apply critical_path_Ok in E2 as (_ & Tc2 & _). rewrite Tc2 in T2.
  exists res, w2. split; [exact W2|]. rewrite T2.
  change k with (col_transaction_id (insert_params receipt)).
  split.
  - rewrite count_key_insert.
    assert ((count_key (col_transaction_id (insert_params receipt))
               (receipt_transactions w1) <= 1)%nat); [|lia].
    destruct Ht1 as [->| ->]; [exact Hc|]. rewrite count_key_insert. fold k. cbn. fold k. lia.
  - intros H0. destruct Ht1 as [->| ->].
    + apply select_key_insert_free. exact H0.
    + rewrite (insert_conflict (insert_params receipt)
                 (receipt_transactions w ++ _)).
      * rewrite app_nil_r. apply select_key_insert_free. exact H0.
      * rewrite count_key_insert. lia.
Qed.

Lemma retry_after_any_failure_leaves_one_row_witness :
  exists res w2,
    write_receipt env_ok sample_receipt
      (snd (write_receipt env_release_fails sample_receipt empty_world)) = (Ok res, w2)
    /\ count_key "TXN-TEST-001" (receipt_transactions w2) = 1%nat.
Proof.
  destruct (retry_after_any_failure_leaves_one_row env_release_fails env_ok sample_receipt
              empty_world) as (res & w2 & E & C & _).
  - repeat split; reflexivity.
  - vm_compute. lia.
  - exists res, w2. split; [exact E | exact C].
Defined.

(** * Further properties of write_batch *)

Lemma extends_refl t : extends t t.
Proof. exists []. now rewrite app_nil_r. Qed.

Lemma extends_trans t1 t2 t3 : extends t1 t2 -> extends t2 t3 -> extends t1 t3.
Proof. intros [a ->] [b ->]. exists (a ++ b). now rewrite app_assoc. Qed.

Lemma extends_count k t t' : extends t t' -> (count_key k t <= count_key k t')%nat.
Proof. intros [a ->]. rewrite count_key_app. lia. Qed.

(** One step of one task adds the row of its insert to the table, or
    nothing. *)
Lemma step_task_table t w :
  receipt_transactions (snd (step_task t w)) = receipt_transactions w
  \/ exists row,
       receipt_transactions (snd (step_task t w))
       = receipt_transactions w
           ++ insert_on_conflict_do_nothing row (receipt_transactions w).
Proof.
  destruct t as [env r|env r lb|out]; cbn [step_task].
  - destruct (critical_path env r w) as [[lb|e] w1] eqn:E.
    + rewrite (lakebase_write_Ok _ _ _ _ _ E). cbn.
      apply critical_path_Ok in E as (_ & -> & _). eauto.
    + destruct (lakebase_write_Err _ _ _ _ _ E) as (w' & -> & _ & Ht). cbn. rewrite Ht.
      apply critical_path_Err in E as (_ & [->|[_ ->]]); eauto.
  - destruct (zerobus_write_table env r lb w) as (Ht & _).
    destruct (zerobus_write env r lb w) as [o w']. cbn in *. auto.
  - auto.
Qed.

Lemma step_task_extends t w :
  extends (receipt_transactions w) (receipt_transactions (snd (step_task t w)))
  /\ (unique_keys (receipt_transactions w) ->
      unique_keys (receipt_transactions (snd (step_task t w)))).
Proof.
  destruct (step_task_table t w) as [->|[row ->]].
  - split; [apply extends_refl | auto].
  - split; [eexists; reflexivity|]. intros Hu k. apply count_key_grows, Hu.
Qed.

Lemma step_at_extends j ts w :
  extends (receipt_transactions w) (receipt_transactions (snd (step_at j ts w)))
  /\ (unique_keys (receipt_transactions w) ->
      unique_keys (receipt_transactions (snd (step_at j ts w)))).
Proof.
  unfold step_at. destruct (ts !! j) as [t|]; [|split; [apply extends_refl | auto]].
  pose proof (step_task_extends t w) as H.
  destruct (step_task t w) as [t' w']. exact H.
Qed.

Lemma run_extends sched : forall ts w,
  extends (receipt_transactions w) (receipt_transactions (snd (run sched ts w)))
  /\ (unique_keys (receipt_transactions w) ->
      unique_keys (receipt_transactions (snd (run sched ts w)))).
Proof.
  induction sched as [|j sched IH]; intros ts w; cbn [run].
  - split; [apply extends_refl | auto].
  - pose proof (step_at_extends j ts w) as [He Hu].
    destruct (step_at j ts w) as [ts' w']. cbn in He, Hu.
    destruct (IH ts' w') as [He' Hu'].
    split; [eapply extends_trans; eauto | auto].
Qed.

(** At any point of a batch, under any schedule and whatever the receipts
    (several may carry one transaction_id) and whatever fails: the rows that
    were in the table are still there, unchanged and in place, and if no
    transaction_id had two rows before, none has two rows now. *)
Theorem batch_keeps_rows_and_unique_keys
    (envs : nat -> Env) (receipts : list POSReceiptEvent.t) (sched : list nat)
    (w : World) :
  let w' := snd (run sched (spawn envs receipts) w) in
  extends (receipt_transactions w) (receipt_transactions w')
  /\ (forall k, count_key k (receipt_transactions w) <= count_key k (receipt_transactions w'))%nat
  /\ (unique_keys (receipt_transactions w) -> unique_keys (receipt_transactions w')).
Proof.
  cbv zeta. destruct (run_extends sched (spawn envs receipts) w) as [He Hu].
  split; [exact He | split; [|exact Hu]].
  intros k. apply extends_count, He.
Qed.

Lemma batch_keeps_rows_and_unique_keys_witness :
  unique_keys (receipt_transactions
                 (snd (run sched3 (spawn envs3 batch_with_duplicate) empty_world))).
Proof.
  apply (batch_keeps_rows_and_unique_keys envs3 batch_with_duplicate sched3 empty_world).
  intros k. vm_compute. lia.
Defined.

(** An empty batch returns the empty list at once, under every schedule,
    and leaves the world as it was. *)
Theorem write_batch_empty (envs : nat -> Env) (sched : list nat) (w : World) :
  write_batch envs [] sched w = Some ([], w).
Proof.
  unfold write_batch.
  assert (H : run sched (spawn envs []) w = ([], w)).
  { cbn [spawn imap]. induction sched as [|j sched IH]; [reflexivity|].
    cbn [run]. unfold step_at. rewrite lookup_nil. exact IH. }
  rewrite H. reflexivity.
Qed.

Lemma zerobus_write_txid env r lb w :
  exists res, fst (zerobus_write env r lb w) = Ok res
              /\ DualWriteResult.transaction_id res = POSReceiptEvent.transaction_id r.
Proof.
  unfold zerobus_write, zerobus_ingest_receipt, try_except, bind, logger, modify, ret.
  destruct (zerobus_outcome env); cbn -[String.append]; eauto.
Qed.

Lemma write_receipt_Ok_txid env r w res :
  fst (write_receipt env r w) = Ok res ->
  DualWriteResult.transaction_id res = POSReceiptEvent.transaction_id r.
Proof.
  destruct (critical_path env r w) as [[lb|e] w1] eqn:E.
  - rewrite (write_receipt_via_critical_Ok _ _ _ _ _ E).
    destruct (zerobus_write_txid env r lb w1) as (res' & -> & Ht). now intros [= <-].
  - destruct (write_receipt_via_critical_Err _ _ _ _ _ E) as (e' & w' & _ & ->).
    discriminate.
Qed.

Lemma step_task_row_present t w :
  task_row_present t (receipt_transactions w) ->
  task_row_present (fst (step_task t w)) (receipt_transactions (snd (step_task t w))).
Proof.
  destruct t as [env r|env r lb|out]; cbn [step_task].
  - intros _. destruct (critical_path env r w) as [[lb|e] w1] eqn:E.
    + rewrite (lakebase_write_Ok _ _ _ _ _ E). cbn.
      apply critical_path_Ok in E as (_ & -> & _).
      change (POSReceiptEvent.transaction_id r) with (col_transaction_id (insert_params r)).
      rewrite count_key_insert. lia.
    + destruct (lakebase_write_Err _ _ _ _ _ E) as (w' & -> & _). exact I.
  - cbn [task_row_present]. intros H.
    destruct (zerobus_write_table env r lb w) as (Ht & _).
    destruct (zerobus_write_txid env r lb w) as (res & Hr & Hid).
    destruct (zerobus_write env r lb w) as [o w']. cbn in *. subst o. cbn.
    now rewrite Ht, Hid.
  - auto.
Qed.

Lemma task_row_present_extends t tbl tbl' :
  extends tbl tbl' -> task_row_present t tbl -> task_row_present t tbl'.
Proof.
  intros He. destruct t as [| |[res|e]]; cbn; auto; intros H;
    eapply Nat.lt_le_trans; [exact H | apply extends_count, He | exact H
                            | apply extends_count, He].
Qed.

Lemma run_row_present sched : forall ts w,
  (forall i t, ts !! i = Some t -> task_row_present t (receipt_transactions w)) ->
  forall i t, fst (run sched ts w) !! i = Some t ->
              task_row_present t (receipt_transactions (snd (run sched ts w))).
Proof.
  induction sched as [|j sched IH]; intros ts w Hinv; cbn [run]; [exact Hinv|].
  unfold step_at. destruct (ts !! j) as [tj|] eqn:Ej; [|apply IH, Hinv].
  pose proof (step_task_row_present tj w (Hinv j tj Ej)) as Hj.
  pose proof (step_task_extends tj w) as [He _].
  destruct (step_task tj w) as [tj' w']. cbn in Hj, He.
  apply IH. intros i t Hi.
  destruct (decide (j = i)) as [->|Hne].
  - rewrite list_lookup_insert_eq in Hi by (eapply lookup_lt_Some; eauto).
    now injection Hi as <-.
  - rewrite list_lookup_insert_ne in Hi by exact Hne.
    eapply task_row_present_extends; [exact He | eauto].
Qed.

(** When a batch has returned, every entry that is a result, not an
    exception, is the result of the receipt at its index, and the row of
    that transaction is in the operational table: a result is never handed
    out for a receipt that was not captured.  With unique keys before the
    batch there is exactly one such row. *)
Theorem batch_results_are_captured
    (envs : nat -> Env) (receipts : list POSReceiptEvent.t) (sched : list nat)
    (w w' : World) (res : list (result Exn DualWriteResult.t)) :
  write_batch envs receipts sched w = Some (res, w') ->
  forall i r d,
    receipts !! i = Some r ->
    res !! i = Some (Ok d) ->
    DualWriteResult.transaction_id d = POSReceiptEvent.transaction_id r
    /\ (0 < count_key (POSReceiptEvent.transaction_id r) (receipt_transactions w'))%nat
    /\ (unique_keys (receipt_transactions w) ->
        count_key (POSReceiptEvent.transaction_id r) (receipt_transactions w') = 1%nat).
Proof.
  intros Hb i r d Hr Hd.
  destruct (write_batch_entries _ _ _ _ _ _ Hb) as [_ Hent].
  destruct (Hent i r Hr) as ((wi & Hi) & _).
  assert (Hid : DualWriteResult.transaction_id d = POSReceiptEvent.transaction_id r).
  { apply (write_receipt_Ok_txid (envs i) r wi). congruence. }
  unfold write_batch in Hb.
  pose proof (run_row_present sched (spawn envs receipts) w) as Hrow.
  pose proof (run_extends sched (spawn envs receipts) w) as [_ Hu].
  destruct (run sched (spawn envs receipts) w) as [ts w''] eqn:Er.
  unfold gather in Hb. destruct (mapM task_outcome ts) as [res'|] eqn:Hm; [|discriminate].
  injection Hb as -> ->. apply mapM_Some in Hm.
  destruct (Forall2_lookup_r _ _ _ _ _ Hm Hd) as (t & Ht & Hout).
  destruct t as [| |out]; cbn in Hout; try discriminate. injection Hout as ->.
  assert (Hp : task_row_present (Done (Ok d)) (receipt_transactions w')).
  { apply (Hrow (fun i t H => ltac:(unfold spawn in H; rewrite list_lookup_imap in H;
        destruct (receipts !! i); cbn in H; [injection H as <-; exact I | discriminate]))
      i (Done (Ok d)) Ht). }
  cbn in Hp, Hu. rewrite Hid in Hp.
  split; [exact Hid | split; [exact Hp|]].
  intros Huniq. specialize (Hu Huniq (POSReceiptEvent.transaction_id r)). lia.
Qed.

Lemma batch_results_are_captured_witness :
  exists res w' d,
    write_batch envs3 batch3 sched3 empty_world = Some (res, w')
    /\ res !! 2%nat = Some (Ok d)
    /\ count_key "TXN-BATCH-002" (receipt_transactions w') = 1%nat.
Proof.
  destruct (write_batch envs3 batch3 sched3 empty_world) as [[res w']|] eqn:E;
    [|vm_compute in E; discriminate].
  destruct (res !! 2%nat) as [[d|e]|] eqn:Ed;
    [|vm_compute in E; injection E as <- _; vm_compute in Ed; discriminate
     |vm_compute in E; injection E as <- _; vm_compute in Ed; discriminate].
  exists res, w', d. split; [reflexivity | split; [exact Ed|]].
  apply (batch_results_are_captured envs3 batch3 sched3 empty_world w' res E 2%nat
           (batch_receipt 2) d eq_refl Ed).
  intros k. vm_compute. lia.
Defined.

(** * The Zerobus client *)

Section ZerobusFacts.
Variable isoformat : Z -> string.

Lemma item_records_lookup env receipt k it :
  POSReceiptEvent.items receipt !! k = Some it ->
  exists rec,
    item_records env receipt !! k = Some rec
    /\ ir_item_seq rec = Z.of_nat k + 1
    /\ ir_event_id rec = uuid4 env
    /\ ir_transaction_id rec = POSReceiptEvent.transaction_id receipt
    /\ ir_upc rec = POSLineItem.upc it /\ ir_sku rec = POSLineItem.sku it
    /\ ir_product_desc rec = POSLineItem.product_desc it
    /\ ir_quantity rec = POSLineItem.quantity it
    /\ ir_unit_price_cents rec = POSLineItem.unit_price_cents it
    /\ ir_extended_cents rec = POSLineItem.extended_cents it
    /\ ir_discount_cents rec = POSLineItem.discount_cents it.
Proof.
  intros H. unfold item_records. rewrite list_lookup_imap, H. cbn.
  eexists. split; [reflexivity|]. cbn. repeat split; reflexivity.
Qed.

Lemma item_records_nil env receipt :
  item_records env receipt = [] <-> POSReceiptEvent.items receipt = [].
Proof.
  unfold item_records. destruct (POSReceiptEvent.items receipt); cbn; split; congruence.
Qed.

(** A successful [ingest_receipt] has sent the header in one POST to the
    receipts table and then, when the receipt has items, all of them in one
    POST to the items table, and nothing else: one record per item, in
    order, numbered from 1, each tagged with the event_id of this attempt
    and the transaction_id of the receipt.  A receipt without items gets no
    POST to the items table.  The returned dict carries that event_id,
    the transaction_id and the number of items. *)
Theorem ingest_receipt_sends_header_then_items
    (env : ZbEnv) (receipt : POSReceiptEvent.t) (zw zw' : ZbWorld) (d : dict) :
  ingest_receipt isoformat env receipt zw = (Ok d, zw') ->
  requests zw'
  = requests zw
      ++ header_request isoformat env receipt
         :: match POSReceiptEvent.items receipt with
            | [] => []
            | _ => [items_request env receipt]
            end
  /\ length (item_records env receipt) = length (POSReceiptEvent.items receipt)
  /\ (forall k it, POSReceiptEvent.items receipt !! k = Some it ->
        exists rec,
          item_records env receipt !! k = Some rec
          /\ ir_item_seq rec = Z.of_nat k + 1
          /\ ir_event_id rec = uuid4 env
          /\ ir_transaction_id rec = POSReceiptEvent.transaction_id receipt
          /\ ir_product_desc rec = POSLineItem.product_desc it)
  /\ dict_get d "event_id" = PStr (uuid4 env)
  /\ dict_get d "transaction_id" = PStr (POSReceiptEvent.transaction_id receipt)
  /\ dict_get d "item_count" = PInt (Z.of_nat (length (POSReceiptEvent.items receipt)))
  /\ dict_get d "status" = PStr "ingested".
Proof.
  intros H.
  assert (Hlen : length (item_records env receipt) = length (POSReceiptEvent.items receipt))
    by apply length_imap.
  split; [|split; [exact Hlen | split]].
  - revert H. unfold ingest_receipt, _post_to_zerobus, header_request, items_request.
    pose proof (item_records_nil env receipt) as Hnil.
    destruct (post_receipts env) as [ack|e]; [|discriminate].
    destruct (item_records env receipt) as [|rec recs] eqn:Er.
    + rewrite (proj1 Hnil eq_refl). intros [= _ <-]. cbn. reflexivity.
    + destruct (POSReceiptEvent.items receipt) as [|it its]; [cbn in Hlen; discriminate|].
      destruct (post_items env) as [iack|e]; [|discriminate].
      intros [= _ <-]. cbn. now rewrite <- app_assoc.
  - intros k it Hk. destruct (item_records_lookup env receipt k it Hk)
      as (rec & ? & ? & ? & ? & _ & _ & ? & _). eauto 10.
  - revert H. unfold ingest_receipt, _post_to_zerobus.
    destruct (post_receipts env) as [ack|e]; [|discriminate].
    destruct (item_records env receipt) as [|rec recs] eqn:Er.
    + intros [= <- _]. rewrite <- Hlen. repeat split; reflexivity.
    + destruct (post_items env) as [iack|e]; [|discriminate].
      intros [= <- _]. rewrite <- Hlen. repeat split; reflexivity.
Qed.

(** [ingest_receipt] raises exactly when one of its POSTs raises, and raises
    that exception.  When the POST of the header raises, nothing is sent to
    the items table.  When the POST of the items raises, the header has
    been sent and stays sent: the log then holds a header without items. *)
Theorem ingest_receipt_failures
    (env : ZbEnv) (receipt : POSReceiptEvent.t) (zw : ZbWorld) :
  (forall exc, post_receipts env = Err exc ->
     fst (ingest_receipt isoformat env receipt zw) = Err exc
     /\ requests (snd (ingest_receipt isoformat env receipt zw))
        = requests zw ++ [header_request isoformat env receipt])
  /\ (forall ack exc,
        post_receipts env = Ok ack -> POSReceiptEvent.items receipt <> [] ->
        post_items env = Err exc ->
        fst (ingest_receipt isoformat env receipt zw) = Err exc
        /\ requests (snd (ingest_receipt isoformat env receipt zw))
           = requests zw ++ [header_request isoformat env receipt; items_request env receipt])
  /\ (forall exc, fst (ingest_receipt isoformat env receipt zw) = Err exc ->
        post_receipts env = Err exc
        \/ POSReceiptEvent.items receipt <> [] /\ post_items env = Err exc).
Proof.
  pose proof (item_records_nil env receipt) as Hnil.
  unfold ingest_receipt, _post_to_zerobus, header_request, items_request.
  split; [|split].
  - intros exc ->. cbn. auto.
  - intros ack exc -> Hne ->.
    destruct (item_records env receipt) as [|rec recs] eqn:Er.
    + exfalso. apply Hne, Hnil. reflexivity.
    + cbn. now rewrite <- app_assoc.
  - intros exc. destruct (post_receipts env) as [ack|e]; [|cbn; intros [= ->]; auto].
    destruct (item_records env receipt) as [|rec recs] eqn:Er; [discriminate|].
    destruct (post_items env) as [iack|e]; [discriminate|].
    cbn. intros [= ->]. right. split; [|reflexivity].
    intros Hi. apply Hnil in Hi. discriminate.
Qed.
End ZerobusFacts.

Lemma ingest_receipt_sends_header_then_items_witness :
  exists d zw',
    ingest_receipt str_int zb_ok sample_receipt zb_empty = (Ok d, zw')
    /\ requests zw' = [header_request str_int zb_ok sample_receipt;
                       items_request zb_ok sample_receipt].
Proof.
  eexists. eexists. split; [reflexivity|].
  exact (proj1 (ingest_receipt_sends_header_then_items str_int zb_ok sample_receipt
                  zb_empty _ _ eq_refl)).
Defined.

Lemma ingest_receipt_failures_witness :
  fst (ingest_receipt str_int zb_items_fail sample_receipt zb_empty)
  = Err zerobus_unreachable
  /\ requests (snd (ingest_receipt str_int zb_items_fail sample_receipt zb_empty))
     = [header_request str_int zb_items_fail sample_receipt;
        items_request zb_items_fail sample_receipt].
Proof.
  apply (proj1 (proj2 (ingest_receipt_failures str_int zb_items_fail sample_receipt
                         zb_empty)) None zerobus_unreachable); [reflexivity| |reflexivity].
  discriminate.
Defined.

Section IngestBatchFacts.
Variable isoformat : Z -> string.



End IngestBatchFacts.


(** * Synced-table status *)

Lemma check_sync_status_entries get :
  fst (check_sync_status get)
  = map (fun st => fst (check_one get (fst st) (snd st))) SYNCED_TABLE_MAP.
Proof.
  unfold check_sync_status, SYNCED_TABLE_MAP. cbn [fold_left map fst snd].
  repeat match goal with
         | |- context [check_one get ?s ?t] =>
             destruct (check_one get s t) as [? ?] eqn:?
         end.
  reflexivity.
Qed.

Lemma check_one_entry get source target :
  let entry := fst (check_one get source target) in
  source_table entry = source /\ target_table entry = target
  /\ (forall exc, get source = Err exc ->
        state entry = "ERROR" /\ message entry = Some (exn_str exc))
  /\ (forall table, get source = Ok table ->
        state entry
        = match table_status table with
          | Some st => default "UNKNOWN" (detailed_state st)
          | None => "UNKNOWN"
          end
        /\ message entry
           = match table_status table with
             | Some st => status_message st
             | None => None
             end).
Proof.
  cbv zeta. unfold check_one. destruct (get source) as [table|exc]; cbn.
  - split; [reflexivity | split; [reflexivity | split]].
    + intros exc [=].
    + intros t [= <-]. destruct (table_status table) as [[[v|] m]|]; split; reflexivity.
  - split; [reflexivity | split; [reflexivity | split]].
    + intros e [= <-]. split; reflexivity.
    + intros t [=].
Qed.

(** [check_sync_status] never raises and always returns four entries, one
    per synced table, in the order of the map and with its source and
    target: a table whose lookup raises gets the state "ERROR" and the text
    of the exception, and the other tables are still looked up; a table
    without status or detailed state gets "UNKNOWN". *)
Theorem check_sync_status_reports_every_table (get : string -> result Exn OnlineTable) :
  let results := fst (check_sync_status get) in
  length results = 4%nat
  /\ map (fun e => (source_table e, target_table e)) results = SYNCED_TABLE_MAP
  /\ forall i source target,
       SYNCED_TABLE_MAP !! i = Some (source, target) ->
       exists entry,
         results !! i = Some entry
         /\ (forall exc, get source = Err exc ->
               state entry = "ERROR" /\ message entry = Some (exn_str exc))
         /\ (forall table, get source = Ok table ->
               state entry
               = match table_status table with
                 | Some st => default "UNKNOWN" (detailed_state st)
                 | None => "UNKNOWN"
                 end).
Proof.
  cbv zeta. rewrite check_sync_status_entries.
  split; [reflexivity | split].
  - rewrite map_map. unfold SYNCED_TABLE_MAP. cbn [map fst snd].
    repeat match goal with
           | |- context [check_one get ?s ?t] =>
               destruct (check_one_entry get s t) as (-> & -> & _)
           end.
    reflexivity.
  - intros i source target Hi.
    exists (fst (check_one get source target)). split.
    + rewrite list_lookup_fmap, Hi. reflexivity.
    + destruct (check_one_entry get source target) as (_ & _ & He & Ho).
      split; [exact He|]. intros table Ht. exact (proj1 (Ho table Ht)).
Qed.

Lemma check_sync_status_reports_every_table_witness :
  exists entry,
    fst (check_sync_status (sample_workspace "PROVISIONING")) !! 1%nat = Some entry
    /\ state entry = "ERROR" /\ message entry = Some "Connection refused".
Proof.
  destruct (proj2 (proj2 (check_sync_status_reports_every_table
                            (sample_workspace "PROVISIONING")))
              1%nat _ _ eq_refl) as (entry & He & Herr & _).
  exists entry. split; [exact He|]. exact (Herr connection_refused eq_refl).
Defined.








(** * Further properties of the reconciliation scan *)

Lemma fold_min_in l : forall x, In (fold_left Z.min l x) (x :: l).
Proof.
  induction l as [|a l IH]; intros x; cbn [fold_left]; [now left|].
  destruct (IH (Z.min x a)) as [H|H]; [|now right; right].
  destruct (Z.min_spec x a) as [[_ E]|[_ E]]; rewrite E in *;
    first [now left | now right; left].
Qed.

Lemma fold_max_in l : forall x, In (fold_left Z.max l x) (x :: l).
Proof.
  induction l as [|a l IH]; intros x; cbn [fold_left]; [now left|].
  destruct (IH (Z.max x a)) as [H|H]; [|now right; right].
  destruct (Z.max_spec x a) as [[_ E]|[_ E]]; rewrite E in *;
    first [now left | now right; left].
Qed.

Lemma sql_min_max_nonempty l :
  l <> [] ->
  exists lo hi, sql_min l = Some lo /\ sql_max l = Some hi
                /\ In lo l /\ In hi l /\ lo <= hi.
Proof.
  destruct l as [|x l]; [congruence|]. intros _.
  exists (fold_left Z.min l x), (fold_left Z.max l x).
  split; [reflexivity | split; [reflexivity|]].
  split; [apply fold_min_in | split; [apply fold_max_in|]].
  destruct (fold_min_le l x) as [H1 _]. destruct (fold_max_ge l x) as [H2 _]. lia.
Qed.

Lemma filter_length_le_impl {A} (f g : A -> bool) l :
  (forall x, In x l -> f x = true -> g x = true) ->
  (length (List.filter f l) <= length (List.filter g l))%nat.
Proof.
  induction l as [|x l IH]; intros H; cbn; [lia|].
  assert (IH' : (length (List.filter f l) <= length (List.filter g l))%nat).
  { apply IH. intros y Hy. apply H. now right. }
  destruct (f x) eqn:Ef.
  - rewrite (H x (or_introl eq_refl) Ef). cbn. lia.
  - destruct (g x); cbn; lia.
Qed.

Section ReconcileMore.
Variable datetime_str : Z -> string.

(** A scan raises in four cases: psycopg is missing (a RuntimeError), the
    connection fails (that exception), the statement fails (that
    exception), or the cutoff NOW() - lookback_hours, an hour being
    3600 * 1000000 microseconds, is not a timestamp of the server (a
    DatetimeFieldOverflow).  Otherwise it returns a report whose fields
    agree with each other: the gap count is between 0 and the number of
    operational rows; it is 0 exactly when the oldest and the newest
    missing timestamps are null; when it is positive both are the
    timestamps of missing in-window rows, the oldest not after the newest;
    and a gap is recommended for a refresh, and logged as a warning,
    exactly when the count is positive. *)
Theorem reconcile_gaps_report_consistent (db : Lakebase) (lookback : option Z) :
  let cutoff := now db - default 24 lookback * 3600 * 1000000 in
  match reconcile_gaps datetime_str db lookback with
  | Err e =>
      (psycopg_installed db = false /\ exn_cls e = "RuntimeError")
      \/ (psycopg_installed db = true /\ connect_exc db = Some e)
      \/ (psycopg_installed db = true /\ connect_exc db = None
          /\ query_exc db = Some e)
      \/ (psycopg_installed db = true /\ connect_exc db = None
          /\ query_exc db = None
          /\ ~ (ts_min db <= cutoff < ts_end db)
          /\ exn_cls e = "DatetimeFieldOverflow")
  | Ok (report, line) =>
      let missing := anti_join (now db) (default 24 lookback)
                       (tbl_receipt_transactions db) (tbl_receipt_lookup db) in
      psycopg_installed db = true /\ connect_exc db = None
      /\ query_exc db = None
      /\ ts_min db <= cutoff < ts_end db
      /\ 0 <= gap_count report <= Z.of_nat (length (tbl_receipt_transactions db))
      /\ (gap_count report = 0 <-> oldest_missing_ts report = None)
      /\ (gap_count report = 0 <-> newest_missing_ts report = None)
      /\ (0 < gap_count report ->
          exists lo hi,
            oldest_missing_ts report = Some (datetime_str lo)
            /\ newest_missing_ts report = Some (datetime_str hi)
            /\ lo <= hi
            /\ In lo (map col_transaction_ts missing)
            /\ In hi (map col_transaction_ts missing))
      /\ (recommendation report
          = "Gap detected — consider triggering a Gold pipeline refresh."
          <-> 0 < gap_count report)
      /\ (fst line = WARNING <-> 0 < gap_count report)
  end.
Proof.
  intros cutoff.
  destruct (psycopg_installed db) eqn:Hp.
  2:{ unfold reconcile_gaps. rewrite Hp. cbn. left. auto. }
  destruct (connect_exc db) as [e|] eqn:Hc.
  { unfold reconcile_gaps. rewrite Hp, Hc. cbn. right. left. auto. }
  destruct (query_exc db) as [e|] eqn:Hq.
  { unfold reconcile_gaps. rewrite Hp, Hc, Hq. cbn. right. right. left. auto. }
  destruct (cutoff_in_range db (default 24 lookback)) eqn:Hr.
  2:{ unfold reconcile_gaps. rewrite Hp, Hc, Hq, Hr. cbn. right. right. right.
      split; [reflexivity|]. split; [reflexivity|]. split; [reflexivity|].
      split; [|reflexivity].
      intros Hin. apply cutoff_in_range_spec in Hin. congruence. }
  destruct (reconcile_gaps_returns datetime_str db lookback Hp Hc Hq Hr)
    as (line & -> & Hline).
  apply cutoff_in_range_spec in Hr.
  cbv zeta.
  set (missing := anti_join (now db) (default 24 lookback)
                    (tbl_receipt_transactions db) (tbl_receipt_lookup db)) in *.
  assert (Hle : (length missing <= length (tbl_receipt_transactions db))%nat)
    by apply List.filter_length_le.
  cbn [gap_report gap_count oldest_missing_ts newest_missing_ts recommendation
         row_gap_count row_oldest_missing_ts row_newest_missing_ts].
  split; [reflexivity | split; [reflexivity | split; [reflexivity|]]].
  split; [exact Hr|]. split; [lia|].
  destruct missing as [|m ms] eqn:Em.
  - cbn. repeat split; try reflexivity; try discriminate; try lia.
    all: intros H; try lia; try apply Hline in H; try (cbn in H; lia).
  - destruct (sql_min_max_nonempty (map col_transaction_ts (m :: ms)))
      as (lo & hi & -> & -> & Hlo & Hhi & Hlh); [discriminate|].
    assert (Hpos : 0 < Z.of_nat (length (m :: ms))) by (cbn [length]; lia).
    destruct (Z.eqb_spec (Z.of_nat (length (m :: ms))) 0) as [E0|_]; [lia|].
    destruct (Z.gtb_spec (Z.of_nat (length (m :: ms))) 0) as [_|E0]; [|lia].
    cbn [negb andb].
    split; [split; [lia | discriminate]|].
    split; [split; [lia | discriminate]|].
    split; [intros _; exists lo, hi; auto|].
    split; [split; [intros _; exact Hpos | reflexivity]|].
    split; [intros _; exact Hpos|]. intros _. apply Hline. cbn [length]. lia.
Qed.

(** A longer lookback never reports fewer gaps, and more rows in the
    analytics copy never report more. *)
Theorem gap_count_monotone
    (db : Lakebase) (h h' : Z) (more : list LookupRow)
    (r r' r'' : GapReport) (l l' l'' : LogLevel * string) :
  h <= h' ->
  reconcile_gaps datetime_str db (Some h) = Ok (r, l) ->
  reconcile_gaps datetime_str db (Some h') = Ok (r', l') ->
  reconcile_gaps datetime_str (with_lookup_rows more db) (Some h) = Ok (r'', l'') ->
  gap_count r <= gap_count r' /\ gap_count r'' <= gap_count r.
Proof.
  intros Hh E E' E''.
  destruct (reconcile_gaps_Ok_inv datetime_str _ _ _ _ E) as (Hp & Hc & Hq & Hr).
  destruct (reconcile_gaps_Ok_inv datetime_str _ _ _ _ E') as (_ & _ & _ & Hr').
  destruct (reconcile_gaps_Ok_inv datetime_str _ _ _ _ E'') as (Hp'' & Hc'' & Hq'' & Hr'').
  destruct (reconcile_gaps_returns datetime_str db (Some h) Hp Hc Hq Hr) as (x & Hx & _).
  destruct (reconcile_gaps_returns datetime_str db (Some h') Hp Hc Hq Hr') as (x' & Hx' & _).
  destruct (reconcile_gaps_returns datetime_str (with_lookup_rows more db) (Some h)
              Hp'' Hc'' Hq'' Hr'') as (x'' & Hx'' & _).
  rewrite Hx in E. rewrite Hx' in E'. rewrite Hx'' in E''.
  injection E as <- _. injection E' as <- _. injection E'' as <- _.
  cbn [gap_report gap_count row_gap_count default with_lookup_rows now
         tbl_receipt_transactions tbl_receipt_lookup].
  unfold anti_join. split; apply Nat2Z.inj_le, filter_length_le_impl; intros rt _ Hb;
    apply andb_prop in Hb as [Hw Hl]; apply andb_true_intro; split.
  - unfold in_window in *. apply Z.leb_le in Hw. apply Z.leb_le.
    unfold hours in *. lia.
  - exact Hl.
  - exact Hw.
  - apply negb_true_iff in Hl. apply negb_true_iff.
    unfold in_lookup in *. rewrite existsb_app in Hl.
    now apply orb_false_elim in Hl as [Hl _].
Qed.
End ReconcileMore.

Lemma gap_count_monotone_witness :
  exists r r' r'' l l' l'',
    reconcile_gaps str_int sample_lakebase (Some 0) = Ok (r, l)
    /\ reconcile_gaps str_int sample_lakebase (Some 24) = Ok (r', l')
    /\ reconcile_gaps str_int
         (with_lookup_rows [MkLookupRow (Some "TXN-TEST-001")] sample_lakebase) (Some 0)
       = Ok (r'', l'')
    /\ gap_count r <= gap_count r' /\ gap_count r'' <= gap_count r.
Proof.
  do 6 eexists. split; [reflexivity|]. split; [reflexivity|]. split; [reflexivity|].
  eapply (gap_count_monotone str_int sample_lakebase 0 24
            [MkLookupRow (Some "TXN-TEST-001")]); [lia|reflexivity|reflexivity|reflexivity].
Defined.

(** * The analytics calls of a batch *)

Lemma count_insert {A} (f : A -> bool) (l : list A) i x y :
  l !! i = Some x ->
  (length (List.filter f (<[i:=y]> l)) + (if f x then 1 else 0)
   = length (List.filter f l) + (if f y then 1 else 0))%nat.
Proof.
  intros H. rewrite <- (take_drop_middle l i x H) at 2.
  rewrite insert_take_drop by (eapply lookup_lt_Some; eauto).
  rewrite !List.filter_app, !length_app. cbn [List.filter].
  destruct (f x), (f y); cbn [length]; lia.
Qed.

(** One step of a task calls the analytics client exactly when it takes the
    task from past its critical path to a result. *)
Lemma step_task_calls t w :
  (length (zerobus_calls (snd (step_task t w))) + (if done_ok t then 1 else 0)
   = length (zerobus_calls w) + (if done_ok (fst (step_task t w)) then 1 else 0))%nat.
Proof.
  destruct t as [env r|env r lb|[res|e]]; cbn [step_task done_ok fst snd]; try lia.
  - destruct (critical_path env r w) as [[lb|e] w1] eqn:E.
    + rewrite (lakebase_write_Ok _ _ _ _ _ E). cbn.
      apply critical_path_Ok in E as (_ & _ & _ & -> & _). lia.
    + destruct (lakebase_write_Err _ _ _ _ _ E) as (w' & Hl & Hc & _).
      rewrite Hl. cbn [fst snd done_ok]. rewrite Hc. lia.
  - unfold zerobus_write, zerobus_ingest_receipt, try_except, bind, logger, modify, ret.
    destruct (zerobus_outcome env); cbn -[String.append]; rewrite length_app; cbn; lia.
Qed.

Lemma run_calls sched : forall ts w,
  (length (zerobus_calls (snd (run sched ts w))) + length (List.filter done_ok ts)
   = length (zerobus_calls w) + length (List.filter done_ok (fst (run sched ts w))))%nat.
Proof.
  induction sched as [|j sched IH]; intros ts w; cbn [run]; [cbn; lia|].
  unfold step_at. destruct (ts !! j) as [t|] eqn:Ej; [|apply IH].
  pose proof (step_task_calls t w) as Hs.
  destruct (step_task t w) as [t' w'] eqn:Es. cbn [fst snd] in Hs.
  pose proof (count_insert done_ok ts j t t' Ej) as Hc.
  specialize (IH (<[j:=t']> ts) w'). lia.
Qed.

Lemma gather_count_ok ts res :
  Forall2 (fun t out => task_outcome t = Some out) ts res ->
  length (List.filter done_ok ts) = length (List.filter is_ok res).
Proof.
  induction 1 as [|t out ts res Ht _ IH]; [reflexivity|].
  destruct t as [| |o]; cbn in Ht; try discriminate. injection Ht as ->.
  destruct out; cbn; lia.
Qed.

Lemma imap_none_done {A} (l : list A) : forall (f : nat -> A -> Task),
  (forall i r, done_ok (f i r) = false) ->
  length (List.filter done_ok (imap f l)) = 0%nat.
Proof.
  induction l as [|r rs IH]; intros f Hf; [reflexivity|].
  rewrite imap_cons. cbn [List.filter]. rewrite Hf. apply IH.
  intros i r'. apply Hf.
Qed.

Lemma spawn_none_done envs receipts :
  length (List.filter done_ok (spawn envs receipts)) = 0%nat.
Proof. unfold spawn. apply imap_none_done. reflexivity. Qed.

(** When a batch has returned, the analytics client has been called once
    for every entry that is a result and not at all for an entry that is an
    exception: the number of calls made is the number of results. *)
Theorem batch_calls_analytics_once_per_result
    (envs : nat -> Env) (receipts : list POSReceiptEvent.t) (sched : list nat)
    (w w' : World) (res : list (result Exn DualWriteResult.t)) :
  write_batch envs receipts sched w = Some (res, w') ->
  length (zerobus_calls w')
  = (length (zerobus_calls w) + length (List.filter is_ok res))%nat.
Proof.
  intros Hb. unfold write_batch in Hb.
  pose proof (run_calls sched (spawn envs receipts) w) as Hc.
  destruct (run sched (spawn envs receipts) w) as [ts w''].
  unfold gather in Hb. destruct (mapM task_outcome ts) as [res'|] eqn:Hm; [|discriminate].
  injection Hb as -> ->. apply mapM_Some in Hm. cbn [fst snd] in Hc.
  rewrite <- (gather_count_ok _ _ Hm).
  pose proof (spawn_none_done envs receipts) as H0.
  lia.
Qed.

Lemma batch_calls_analytics_once_per_result_witness :
  exists res w',
    write_batch envs3 batch3 sched3 empty_world = Some (res, w')
    /\ length (zerobus_calls w') = 2%nat.
Proof.
  destruct (write_batch envs3 batch3 sched3 empty_world) as [[res w']|] eqn:E;
    [|vm_compute in E; discriminate].
  exists res, w'. split; [reflexivity|].
  rewrite (batch_calls_analytics_once_per_result envs3 batch3 sched3 empty_world w' res E).
  vm_compute in E. injection E as <- _. reflexivity.
Defined.
